(** * codex-go: the streamed turn assembler of [internal/agent/openai.go]

    A shallow embedding of [OpenAIAgent]: the conversion of the conversation
    history into the upstream request, the [Recv] loops of [SendMessage] and
    [SendFunctionResult], the pending-call map, and [AddSystemMessage].

    Conventions.
    - A Go struct is a record in a module of the struct's name, so that a field
      reads [Message.Role m] as it reads [m.Role] in the source.
    - A Go [map[string]T] is a [gmap string T]; a [for k, v := range m] loop
      visits the entries in an order the language leaves open, which the model
      takes from an oracle (see [RangeOrder]).
    - The response handler is a callback; every call of it is recorded, with
      the pending-call map as it stands at the moment of the call. *)

From Stdlib Require Import ZArith Ascii String.
From stdpp Require Import gmap strings list fin_maps.

Open Scope string_scope.
Open Scope list_scope.
Open Scope Z_scope.
Open Scope nat_scope.
Open Scope stdpp_scope.

(** ** Strings *)

(** [s != ""] *)
Definition nonempty (s : string) : bool := negb (s =? "")%string.

(** [strings.Contains(s, substr)] *)
Fixpoint Contains (s substr : string) : bool :=
  String.prefix substr s ||
  match s with
  | EmptyString => false
  | String _ s' => Contains s' substr
  end.

(** ** Types of the go-openai client library, as far as the agent reads or
    writes them *)

Module openai.

Definition ChatMessageRoleSystem : string := "system".
Definition ChatMessageRoleUser : string := "user".
Definition ChatMessageRoleAssistant : string := "assistant".
Definition ChatMessageRoleTool : string := "tool".
Definition ToolTypeFunction : string := "function".

Module FunctionCall.
Record t := mk { Name : string; Arguments : string }.
End FunctionCall.

Module ToolCall.
Record t := mk { ID : string; Type_ : string; Function : FunctionCall.t }.
End ToolCall.

Module ChatCompletionMessage.
Record t := mk {
      Role : string;
      Content : string;
      ToolCalls : list ToolCall.t;
      ToolCallID : string
    }.
End ChatCompletionMessage.

  (** [ToolCalls] of a delta is a slice the code tests both for [nil] and for
      its length: [None] is the nil slice. *)
Module Delta.
Record t := mk {
      Role : string;
      Content : string;
      ToolCalls : option (list ToolCall.t)
    }.
End Delta.

Module Choice.
Record t := mk { Delta : Delta.t; FinishReason : string }.
End Choice.

Module ChatCompletionStreamResponse.
Record t := mk { Choices : list Choice.t }.
End ChatCompletionStreamResponse.

End openai.

(** ** Types of the agent package *)

(** Modelled from the spec: the declarations of [FunctionCall], [ToolCall],
    [Message] and [ResponseItem] are in a file of the package that is not
    part of the sources at hand; the fields are the ones [openai.go] reads and
    writes, which are the fields of the spec's Entry, ToolCallRequest and
    ResponseEvent. *)
Module FunctionCall.
Record t := mk { Name : string; Arguments : string; ID : string }.
End FunctionCall.

Module ToolCall.
Record t := mk { ID : string; Type_ : string; Function : FunctionCall.t }.
End ToolCall.

Module Message.
Record t := mk {
    Role : string;
    Content : string;
    ToolCalls : list ToolCall.t;
    ToolCallID : string;
    Name : string
  }.
End Message.

Module ResponseItem.
Record t := mk {
    Type_ : string;
    Message : option Message.t;
    FunctionCall : option FunctionCall.t;
    ThinkingDuration : Z
  }.
End ResponseItem.

(** Modelled from the spec: [ConversationHistory] (the spec's Message Log) is
    declared in a file that is not part of the sources at hand. The spec makes
    it an ordered, append-only sequence of entries, so [AddMessage] and
    [AddMessages] append at the end. Its window [GetMessagesForContext] is
    left open: it is a field of [Env] below. *)
Definition ConversationHistory := list Message.t.

Definition AddMessage (h : ConversationHistory) (m : Message.t) : ConversationHistory :=
  h ++ [m].

Definition AddMessages (h : ConversationHistory) (ms : list Message.t) : ConversationHistory :=
  h ++ ms.

(** ** [mustMarshal] on the tool-result payloads

    The two payloads the agent marshals are one-key objects whose value is a
    string: [map[string]interface{}{key: value}]. [encoding/json] is Go's
    library; [json_string] follows the string encoder of [json.Marshal]
    (the HTML-safe one, its default) byte by byte:
    - below 128, the quote and the backslash are escaped with a backslash,
      backspace, form feed, line feed, carriage return and tab are written
      as [\b], [\f], [\n], [\r] and [\t], the other bytes below 32 and
      [<], [>], [&] as [\u00XX], and every other byte is copied;
    - from 128 on, the encoder decodes one rune with
      [utf8.DecodeRuneInString]: a byte that starts no well-formed UTF-8
      sequence is written as the six characters [\ufffd] and the encoder
      moves one byte on, U+2028 and U+2029 are written as [\u2028] and
      [\u2029], and the bytes of every other rune are copied. *)

Definition hex_digit (n : nat) : ascii :=
  match n with
  | 0 => "0" | 1 => "1" | 2 => "2" | 3 => "3" | 4 => "4" | 5 => "5" | 6 => "6" | 7 => "7"
  | 8 => "8" | 9 => "9" | 10 => "a" | 11 => "b" | 12 => "c" | 13 => "d" | 14 => "e"
  | _ => "f"
  end%char.

Definition backslash : ascii := "\"%char.
Definition dquote : ascii := "034"%char.

(** The encoder's switch on a byte below [utf8.RuneSelf]. *)
Definition json_escape_byte (c : ascii) : string :=
  let b := nat_of_ascii c in
  if (b =? 34)%nat || (b =? 92)%nat then String backslash (String c EmptyString)
  else if (b =? 8)%nat then String backslash "b"
  else if (b =? 12)%nat then String backslash "f"
  else if (b =? 10)%nat then String backslash "n"
  else if (b =? 13)%nat then String backslash "r"
  else if (b =? 9)%nat then String backslash "t"
  else if (b <? 32)%nat || (b =? 60)%nat || (b =? 62)%nat || (b =? 38)%nat then
    String backslash
      (String "u" (String "0" (String "0"
        (String (hex_digit (b / 16)) (String (hex_digit (b mod 16)) EmptyString)))))
  else String c EmptyString.

Definition between (lo hi : nat) (c : ascii) : bool :=
  let b := nat_of_ascii c in ((lo <=? b) && (b <=? hi))%nat.

(** [utf8.first] and [utf8.acceptRanges]: the length a first byte announces
    and the range its second byte must lie in; length 1 marks a byte that
    starts no sequence. *)
Definition utf8_first (c : ascii) : nat * (nat * nat) :=
  if between 194 223 c then (2, (128, 191))
  else if between 224 224 c then (3, (160, 191))
  else if between 225 236 c then (3, (128, 191))
  else if between 237 237 c then (3, (128, 159))
  else if between 238 239 c then (3, (128, 191))
  else if between 240 240 c then (4, (144, 191))
  else if between 241 243 c then (4, (128, 191))
  else if between 244 244 c then (4, (128, 143))
  else (1, (0, 0))%nat.

(** The size [utf8.DecodeRuneInString] returns on [String c rest] when [c]
    is 128 or more: 1 with [RuneError] when the bytes are too few or out of
    range, the announced length otherwise. *)
Definition rune_size (c : ascii) (rest : string) : nat :=
  let '(size, (lo, hi)) := utf8_first c in
  match size, rest with
  | 2, String c1 _ => if between lo hi c1 then 2 else 1
  | 3, String c1 (String c2 _) =>
      if between lo hi c1 && between 128 191 c2 then 3 else 1
  | 4, String c1 (String c2 (String c3 _)) =>
      if between lo hi c1 && between 128 191 c2 && between 128 191 c3 then 4 else 1
  | _, _ => 1
  end%nat.

Definition replacement_escape : string :=
  String backslash "ufffd".

(** [\u202] followed by the last hexadecimal digit of the rune, for U+2028
    and U+2029. *)
Definition separator_escape (c2 : ascii) : string :=
  String backslash
    (String "u" (String "2" (String "0" (String "2"
      (String (hex_digit (nat_of_ascii c2 mod 16)) EmptyString))))).

(** [copy] counts the bytes still to be copied of a rune the encoder has
    decoded and leaves as it is. *)
Fixpoint json_escape_from (copy : nat) (s : string) : string :=
  match s with
  | EmptyString => EmptyString
  | String c rest =>
      match copy with
      | S copy' => String c (json_escape_from copy' rest)
      | O =>
          if (nat_of_ascii c <? 128)%nat then json_escape_byte c +:+ json_escape_from 0 rest
          else
            match rune_size c rest with
            | 1%nat => replacement_escape +:+ json_escape_from 0 rest
            | size =>
                match rest with
                | String c1 (String c2 after) =>
                    if between 226 226 c && between 128 128 c1 && between 168 169 c2
                    then separator_escape c2 +:+ json_escape_from 0 after
                    else String c (json_escape_from (size - 1) rest)
                | _ => String c (json_escape_from (size - 1) rest)
                end
            end
      end
  end.

Definition json_escape (s : string) : string := json_escape_from 0 s.

Definition json_string (s : string) : string :=
  String dquote (json_escape s +:+ String dquote EmptyString).

(** [string(mustMarshal(map[string]interface{}{key: value}))] *)
Definition mustMarshal (key value : string) : string :=
  "{" +:+ json_string key +:+ ":" +:+ json_string value +:+ "}".

(** ** Ranging over a Go map

    [for k, v := range m] visits every entry of [m] once; the order is not
    specified and may differ from one loop to the next. The model asks an
    oracle for it: [ord site ks] is the order in which the range statement at
    [site] visits the keys [ks]. [range_permutes] is all the language
    promises. *)

Inductive RangeSite :=
| AtDrain               (* SendMessage, the loop over a.pendingToolCalls *)
| AtFinish (n : nat)    (* SendMessage, the loop that calls the handler, while the n-th response is processed *)
| AtCommit.             (* SendMessage, the loop that builds the assistant entry *)

Definition RangeOrder := RangeSite → list string → list string.

Definition range_permutes (ord : RangeOrder) : Prop :=
  ∀ site ks, ord site ks ≡ₚ ks.

Definition go_range {V} (ord : RangeOrder) (site : RangeSite) (m : gmap string V)
  : list (string * V) :=
  omap (λ k, pair k <$> m !! k) (ord site (elements (dom m))).


(** ** The agent and what surrounds it *)

(** [ResponseHandler] is a callback of the caller. The model names it and
    records every call made to it; a handler is never nil here, the nil
    [currentHandler] of the agent is [None]. *)
Definition ResponseHandler := nat.

(** One call [handler(string(jsonData))]: the item that was marshalled (a
    [ResponseItem] of strings always marshals, so the [err == nil] test before
    the call always passes) and [a.pendingToolCalls] as it is when the call is
    made. *)
Module Delivery.
Record t := mk {
  to : ResponseHandler;
  item : ResponseItem.t;
  pendingThen : gmap string bool
}.
End Delivery.

(** The stream the client hands back: the responses [Recv] returns one after
    the other, each with the reading of [time.Since(startTime).Milliseconds()]
    while it is processed, and how [Recv] ends: [io.EOF], or another error
    (a transport failure, or the context of the call being cancelled). *)
Inductive RecvEnd :=
| EOF
| RecvError (err : string).

Module Stream.
Record t := mk {
  responses : list (Z * openai.ChatCompletionStreamResponse.t);
  ending : RecvEnd
}.
End Stream.

(** [a.client.CreateChatCompletionStream(ctx, req)] *)
Inductive CreateResult :=
| CreateError (err : string)
| Created (stream : Stream.t).

(** What the agent calls and does not define. A request is modelled by its
    [Messages]; its other fields are constants of the agent. *)
Module Env.
Record t := mk {
  GetMessagesForContext : ConversationHistory → list Message.t;
  CreateChatCompletionStream : list openai.ChatCompletionMessage.t → CreateResult;
  order : RangeOrder
}.
End Env.

(** The fields of [OpenAIAgent] that its methods change. [history] is a
    pointer that may be nil; [cancelFunc] records whether the field is
    non-nil. *)
Module OpenAIAgent.
Record t := mk {
  cancelFunc : bool;
  history : option ConversationHistory;
  currentHandler : option ResponseHandler;
  pendingToolCalls : gmap string bool
}.
End OpenAIAgent.

(** A call of a method: what it returns, the agent it leaves, and the calls of
    the handler it made, oldest first. *)
Module Run.
Record t (R : Type) := mk {
  ret : R;
  agent : OpenAIAgent.t;
  calls : list Delivery.t
}.
Arguments mk {R}.
Arguments ret {R}.
Arguments agent {R}.
Arguments calls {R}.
End Run.

(** ** [SendMessage]: from the history to the request *)

Definition convertToolCall (tc : ToolCall.t) : openai.ToolCall.t :=
  openai.ToolCall.mk (ToolCall.ID tc) (ToolCall.Type_ tc)
    (openai.FunctionCall.mk (FunctionCall.Name (ToolCall.Function tc))
                            (FunctionCall.Arguments (ToolCall.Function tc))).

(** The body of [for _, msg := range historyMessages]. *)
Definition SendMessage_apiMsg (msg : Message.t) : openai.ChatCompletionMessage.t :=
  let isCall :=
    (Message.Role msg =? openai.ChatMessageRoleAssistant)%string
    && (0 <? length (Message.ToolCalls msg)) in
  openai.ChatCompletionMessage.mk
    (Message.Role msg)
    (if isCall then "" else Message.Content msg)
    (if isCall then convertToolCall <$> Message.ToolCalls msg else [])
    (if (Message.Role msg =? openai.ChatMessageRoleTool)%string
     then Message.ToolCallID msg else "").

Definition SendMessage_openAIMessages (historyMessages : list Message.t)
  : list openai.ChatCompletionMessage.t :=
  SendMessage_apiMsg <$> historyMessages.

(** ** [SendFunctionResult]: from the history to the request *)

(** The body of [for i := 0; i < len(historyMessages); i++], with the map
    [toolCallIDsExpected] threaded through: the ids it holds after the entry,
    and the message to append, if [addMsg]. *)
Definition SendFunctionResult_apiMsg
    (toolCallIDsExpected : gmap string bool) (msg : Message.t)
  : gmap string bool * option openai.ChatCompletionMessage.t :=
  let isAssistant := (Message.Role msg =? openai.ChatMessageRoleAssistant)%string in
  let isCall := isAssistant && (0 <? length (Message.ToolCalls msg)) in
  let expected1 :=
    if isCall
    then foldl (λ e tc, <[ToolCall.ID tc := true]> e) toolCallIDsExpected (Message.ToolCalls msg)
    else toolCallIDsExpected in
  let addMsg :=
    negb (isAssistant && negb (0 <? length (Message.ToolCalls msg))
          && (0 <? size toolCallIDsExpected)) in
  let isTool := (Message.Role msg =? openai.ChatMessageRoleTool)%string in
  let expected2 := if isTool then delete (Message.ToolCallID msg) expected1 else expected1 in
  let apiMsg :=
    openai.ChatCompletionMessage.mk
      (Message.Role msg)
      (if isCall then "" else Message.Content msg)
      (if isCall then convertToolCall <$> Message.ToolCalls msg else [])
      (if isTool then Message.ToolCallID msg else "") in
  (expected2, if addMsg then Some apiMsg else None).

Fixpoint SendFunctionResult_filter
    (toolCallIDsExpected : gmap string bool) (historyMessages : list Message.t)
  : list openai.ChatCompletionMessage.t :=
  match historyMessages with
  | [] => []
  | msg :: rest =>
      let '(expected, apiMsg) := SendFunctionResult_apiMsg toolCallIDsExpected msg in
      match apiMsg with
      | Some m => m :: SendFunctionResult_filter expected rest
      | None => SendFunctionResult_filter expected rest
      end
  end.

Definition SendFunctionResult_openAIMessages (historyMessages : list Message.t)
  : list openai.ChatCompletionMessage.t :=
  SendFunctionResult_filter ∅ historyMessages.

(** ** [SendMessage]: the [Recv] loop *)

(** The local variables of the loop, with what the loop changes outside
    them: the pending-call map of the agent and the calls of the handler. *)
Module Turn.
Record t := mk {
  accumulatingToolCalls : gmap string openai.FunctionCall.t;
  currentContent : string;
  currentRole : string;
  streamEndedWithToolCall : bool;
  processingToolCall : bool;
  pendingToolCalls : gmap string bool;
  calls : list Delivery.t
}.
End Turn.

Definition message_item (role content : string) (since : Z) : ResponseItem.t :=
  ResponseItem.mk "message" (Some (Message.mk role content [] "" "")) None since.

Definition function_call_item (name arguments id : string) (since : Z) : ResponseItem.t :=
  ResponseItem.mk "function_call" None (Some (FunctionCall.mk name arguments id)) since.

(** The body of [for _, toolCallChunk := range choice.Delta.ToolCalls]. *)
Definition accumulate
    (accumulatingToolCalls : gmap string openai.FunctionCall.t)
    (toolCallChunk : openai.ToolCall.t)
  : gmap string openai.FunctionCall.t :=
  let id := openai.ToolCall.ID toolCallChunk in
  let fn := openai.ToolCall.Function toolCallChunk in
  if (id =? "")%string then accumulatingToolCalls
  else
    let acc :=
      match accumulatingToolCalls !! id with
      | Some _ => accumulatingToolCalls
      | None => <[id := openai.FunctionCall.mk (openai.FunctionCall.Name fn) ""]> accumulatingToolCalls
      end in
    if nonempty (openai.FunctionCall.Arguments fn)
    then alter (λ call, openai.FunctionCall.mk (openai.FunctionCall.Name call)
                  (openai.FunctionCall.Arguments call +:+ openai.FunctionCall.Arguments fn)) id acc
    else acc.

(** The body of [for id, completedCall := range accumulatingToolCalls] under
    [FinishReason == "tool_calls"]: the id is entered in the pending map, then
    the handler is called. *)
Definition SendMessage_emit (handler : ResponseHandler) (since : Z)
    (st : gmap string bool * list Delivery.t) (entry : string * openai.FunctionCall.t)
  : gmap string bool * list Delivery.t :=
  let pending := <[entry.1 := true]> st.1 in
  (pending,
   st.2 ++ [Delivery.mk handler
              (function_call_item (openai.FunctionCall.Name entry.2)
                 (openai.FunctionCall.Arguments entry.2) entry.1 since)
              pending]).

(** The body of [if len(response.Choices) > 0], on [choice := response.Choices[0]],
    for the [n]-th response of the stream. The inner test
    [FinishReason != ""] is implied by [FinishReason == "tool_calls"]; its
    other branch only logs. *)
Definition SendMessage_choice (ord : RangeOrder) (handler : ResponseHandler)
    (n : nat) (since : Z) (choice : openai.Choice.t) (st : Turn.t) : Turn.t :=
  let delta := openai.Choice.Delta choice in
  let currentRole :=
    if nonempty (openai.Delta.Role delta) then openai.Delta.Role delta
    else Turn.currentRole st in
  let processingToolCall :=
    Turn.processingToolCall st
    || (0 <? length (default [] (openai.Delta.ToolCalls delta))) in
  let text := nonempty (openai.Delta.Content delta) && negb processingToolCall in
  let currentContent :=
    if text then Turn.currentContent st +:+ openai.Delta.Content delta
    else Turn.currentContent st in
  let calls :=
    if text
    then Turn.calls st ++ [Delivery.mk handler (message_item currentRole currentContent since)
                             (Turn.pendingToolCalls st)]
    else Turn.calls st in
  let accumulating :=
    match openai.Delta.ToolCalls delta with
    | Some chunks =>
        if processingToolCall then foldl accumulate (Turn.accumulatingToolCalls st) chunks
        else Turn.accumulatingToolCalls st
    | None => Turn.accumulatingToolCalls st
    end in
  let finished := (openai.Choice.FinishReason choice =? "tool_calls")%string in
  let streamEndedWithToolCall :=
    Turn.streamEndedWithToolCall st
    || (processingToolCall && bool_decide (is_Some (openai.Delta.ToolCalls delta)))
    || finished in
  let emitted :=
    if finished
    then foldl (SendMessage_emit handler since) (Turn.pendingToolCalls st, calls)
           (go_range ord (AtFinish n) accumulating)
    else (Turn.pendingToolCalls st, calls) in
  Turn.mk accumulating currentContent currentRole streamEndedWithToolCall
    processingToolCall emitted.1 emitted.2.

Definition SendMessage_recv (ord : RangeOrder) (handler : ResponseHandler)
    (n : nat) (received : Z * openai.ChatCompletionStreamResponse.t) (st : Turn.t) : Turn.t :=
  match openai.ChatCompletionStreamResponse.Choices received.2 with
  | choice :: _ => SendMessage_choice ord handler n received.1 choice st
  | [] => st
  end.

(** The loop over the responses that [Recv] returns without an error, the
    first of them being the [n]-th of the stream. *)
Fixpoint SendMessage_loop (ord : RangeOrder) (handler : ResponseHandler) (n : nat)
    (responses : list (Z * openai.ChatCompletionStreamResponse.t)) (st : Turn.t) : Turn.t :=
  match responses with
  | [] => st
  | received :: rest =>
      SendMessage_loop ord handler (S n) rest (SendMessage_recv ord handler n received st)
  end.

Definition Turn_start (pending : gmap string bool) : Turn.t :=
  Turn.mk ∅ "" openai.ChatMessageRoleAssistant false false pending [].

(** ** [SendMessage]: before and after the loop *)

Definition cancelled_result (callID : string) : Message.t :=
  Message.mk openai.ChatMessageRoleTool
    (mustMarshal "error" "execution cancelled by user") [] callID "".

(** The block between BEGIN and END CANCELLATION HANDLING: the history and
    the pending map it leaves. *)
Definition SendMessage_reconcile (ord : RangeOrder) (pending : gmap string bool)
    (h : ConversationHistory) (messages : list Message.t)
  : ConversationHistory * gmap string bool :=
  let abortedToolResults :=
    if 0 <? size pending
    then cancelled_result <$> (go_range ord AtDrain pending).*1
    else [] in
  let pending' := if 0 <? size pending then ∅ else pending in
  let h1 := if 0 <? length abortedToolResults then AddMessages h abortedToolResults else h in
  let h2 := if 0 <? length messages then AddMessages h1 messages else h1 in
  (h2, pending').

(** The block "Add Final Assistant Message to History AFTER loop", for a
    history that is not nil. *)
Definition SendMessage_commit (ord : RangeOrder) (st : Turn.t) (h : ConversationHistory)
  : ConversationHistory :=
  if Turn.streamEndedWithToolCall st then
    let assistantMsgToolCalls :=
      (λ entry : string * openai.FunctionCall.t,
         let args := openai.FunctionCall.Arguments entry.2 in
         ToolCall.mk entry.1 openai.ToolTypeFunction
           (FunctionCall.mk (openai.FunctionCall.Name entry.2)
              (if (args =? "")%string then "{}" else args) ""))
      <$> go_range ord AtCommit (Turn.accumulatingToolCalls st) in
    if 0 <? length assistantMsgToolCalls
    then AddMessage h (Message.mk openai.ChatMessageRoleAssistant "" assistantMsgToolCalls "" "")
    else h
  else if nonempty (Turn.currentContent st)
  then AddMessage h (Message.mk (Turn.currentRole st) (Turn.currentContent st) [] "" "")
  else h.

(** What [SendMessage] returns: the flag and the error, [None] for nil. *)
Definition SendMessageReturn : Type := bool * option string.

(** The request [SendMessage] builds from the history [h] it finds. *)
Definition SendMessage_request (env : Env.t) (pending : gmap string bool)
    (h : ConversationHistory) (messages : list Message.t)
  : list openai.ChatCompletionMessage.t :=
  SendMessage_openAIMessages
    (Env.GetMessagesForContext env
       (SendMessage_reconcile (Env.order env) pending h messages).1).

(** [SendMessage] on an agent whose history is [h]. *)
Definition SendMessage_on (env : Env.t) (a : OpenAIAgent.t) (h : ConversationHistory)
    (messages : list Message.t) (handler : ResponseHandler) : Run.t SendMessageReturn :=
  let ord := Env.order env in
  let reconciled := SendMessage_reconcile ord (OpenAIAgent.pendingToolCalls a) h messages in
  let leave r h' pending calls :=
    Run.mk r (OpenAIAgent.mk true (Some h') (Some handler) pending) calls in
  match Env.CreateChatCompletionStream env
          (SendMessage_request env (OpenAIAgent.pendingToolCalls a) h messages) with
  | CreateError err =>
      leave (false, Some ("error creating chat completion stream: " +:+ err))
        reconciled.1 reconciled.2 []
  | Created stream =>
      let st := SendMessage_loop ord handler 0 (Stream.responses stream)
                  (Turn_start reconciled.2) in
      match Stream.ending stream with
      | RecvError err =>
          leave (false, Some ("error receiving from stream: " +:+ err))
            reconciled.1 (Turn.pendingToolCalls st) (Turn.calls st)
      | EOF =>
          leave (Turn.streamEndedWithToolCall st, None)
            (SendMessage_commit ord st reconciled.1) (Turn.pendingToolCalls st) (Turn.calls st)
      end
  end.

(** [SendMessage]. With a nil history the call does not return: it calls
    [GetMessagesForContext] through the nil pointer ([None]). *)
Definition SendMessage (env : Env.t) (a : OpenAIAgent.t)
    (messages : list Message.t) (handler : ResponseHandler)
  : option (Run.t SendMessageReturn) :=
  h ← OpenAIAgent.history a;
  Some (SendMessage_on env a h messages handler).

(** ** [SendFunctionResult] *)

(** The local variables of the follow-up loop, with the history (the loop
    appends to it) and the calls of the handler. [currentRole] never changes
    in this loop. *)
Module Followup.
Record t := mk {
  currentContent : string;
  currentFunctionCall : option openai.FunctionCall.t;
  currentFunctionCallID : string;
  history : ConversationHistory;
  calls : list Delivery.t
}.
End Followup.

(** The body of [if len(response.Choices) > 0] of the follow-up loop. The
    pending map is not written in this loop: [pending] is the map the loop
    starts with. *)
Definition SendFunctionResult_choice (handler : ResponseHandler)
    (pending : gmap string bool) (since : Z) (choice : openai.Choice.t)
    (st : Followup.t) : Followup.t :=
  let delta := openai.Choice.Delta choice in
  let text := nonempty (openai.Delta.Content delta) in
  let currentContent :=
    if text then Followup.currentContent st +:+ openai.Delta.Content delta
    else Followup.currentContent st in
  let calls :=
    if text
    then Followup.calls st
           ++ [Delivery.mk handler
                 (message_item openai.ChatMessageRoleAssistant currentContent since) pending]
    else Followup.calls st in
  let '(currentFunctionCall, currentFunctionCallID) :=
    match default [] (openai.Delta.ToolCalls delta) with
    | toolCall :: _ =>
        let fn := openai.ToolCall.Function toolCall in
        match Followup.currentFunctionCall st with
        | None =>
            (Some (openai.FunctionCall.mk (openai.FunctionCall.Name fn)
                     (openai.FunctionCall.Arguments fn)),
             openai.ToolCall.ID toolCall)
        | Some call =>
            (Some (openai.FunctionCall.mk (openai.FunctionCall.Name call)
                     (openai.FunctionCall.Arguments call +:+ openai.FunctionCall.Arguments fn)),
             Followup.currentFunctionCallID st)
        end
    | [] => (Followup.currentFunctionCall st, Followup.currentFunctionCallID st)
    end in
  match currentFunctionCall with
  | Some call =>
      if (openai.Choice.FinishReason choice =? "tool_calls")%string then
        let nestedToolCalls :=
          [ToolCall.mk currentFunctionCallID openai.ToolTypeFunction
             (FunctionCall.mk (openai.FunctionCall.Name call)
                (openai.FunctionCall.Arguments call) "")] in
        Followup.mk currentContent None ""
          (AddMessage (Followup.history st)
             (Message.mk openai.ChatMessageRoleAssistant "" nestedToolCalls "" ""))
          (calls ++ [Delivery.mk handler
                       (function_call_item (openai.FunctionCall.Name call)
                          (openai.FunctionCall.Arguments call) currentFunctionCallID since)
                       pending])
      else
        Followup.mk currentContent currentFunctionCall currentFunctionCallID
          (Followup.history st) calls
  | None =>
      Followup.mk currentContent currentFunctionCall currentFunctionCallID
        (Followup.history st) calls
  end.

Definition SendFunctionResult_recv (handler : ResponseHandler) (pending : gmap string bool)
    (received : Z * openai.ChatCompletionStreamResponse.t) (st : Followup.t) : Followup.t :=
  match openai.ChatCompletionStreamResponse.Choices received.2 with
  | choice :: _ => SendFunctionResult_choice handler pending received.1 choice st
  | [] => st
  end.

Definition SendFunctionResult_loop (handler : ResponseHandler) (pending : gmap string bool)
    (responses : list (Z * openai.ChatCompletionStreamResponse.t)) (st : Followup.t)
  : Followup.t :=
  foldl (λ st received, SendFunctionResult_recv handler pending received st) st responses.

Definition followup_complete_item : ResponseItem.t :=
  ResponseItem.mk "followup_complete" None None 0.

Definition toolResultMessage (callID functionName output : string) (success : bool)
  : Message.t :=
  Message.mk openai.ChatMessageRoleTool
    (mustMarshal (if success then "output" else "error") output) [] callID functionName.

(** The request [SendFunctionResult] builds from the history [h] it finds. *)
Definition SendFunctionResult_request (env : Env.t) (h : ConversationHistory)
    (callID functionName output : string) (success : bool)
  : list openai.ChatCompletionMessage.t :=
  SendFunctionResult_openAIMessages
    (Env.GetMessagesForContext env
       (AddMessage h (toolResultMessage callID functionName output success))).

(** [SendFunctionResult]; it returns an error, [None] for nil. *)
Definition SendFunctionResult (env : Env.t) (a : OpenAIAgent.t)
    (callID functionName output : string) (success : bool) : Run.t (option string) :=
  let pending := delete callID (OpenAIAgent.pendingToolCalls a) in
  let leave r history calls :=
    Run.mk r (OpenAIAgent.mk (OpenAIAgent.cancelFunc a) history
                (OpenAIAgent.currentHandler a) pending) calls in
  match OpenAIAgent.history a with
  | None => leave (Some "agent history is nil") None []
  | Some h =>
      let h1 := AddMessage h (toolResultMessage callID functionName output success) in
      match OpenAIAgent.currentHandler a with
      | None => leave None (Some h1) []
      | Some handler =>
          match Env.CreateChatCompletionStream env
                  (SendFunctionResult_request env h callID functionName output success) with
          | CreateError err =>
              leave (Some ("error creating follow-up chat completion stream: " +:+ err))
                (Some h1) []
          | Created stream =>
              let st := SendFunctionResult_loop handler pending (Stream.responses stream)
                          (Followup.mk "" None "" h1 []) in
              match Stream.ending stream with
              | RecvError err =>
                  leave (Some ("error receiving from follow-up stream: " +:+ err))
                    (Some (Followup.history st)) (Followup.calls st)
              | EOF =>
                  let h2 :=
                    if nonempty (Followup.currentContent st)
                    then AddMessage (Followup.history st)
                           (Message.mk openai.ChatMessageRoleAssistant
                              (Followup.currentContent st) [] "" "")
                    else Followup.history st in
                  let calls :=
                    match Followup.currentFunctionCall st with
                    | None =>
                        Followup.calls st ++ [Delivery.mk handler followup_complete_item pending]
                    | Some _ => Followup.calls st
                    end in
                  leave None (Some h2) calls
              end
          end
      end
  end.

(** ** The other methods that touch the history and the pending map *)

(** [AddSystemMessage]; it returns an error, which is always nil. *)
Definition AddSystemMessage (a : OpenAIAgent.t) (content : string)
  : OpenAIAgent.t * option string :=
  if Contains content "DEBUG:" then (a, None)
  else
    match OpenAIAgent.history a with
    | Some h =>
        (OpenAIAgent.mk (OpenAIAgent.cancelFunc a)
           (Some (AddMessage h (Message.mk "system" content [] "" "")))
           (OpenAIAgent.currentHandler a) (OpenAIAgent.pendingToolCalls a),
         None)
    | None => (a, None)
    end.

(** [Cancel]: the pending map is left as it is. *)
Definition Cancel (a : OpenAIAgent.t) : OpenAIAgent.t :=
  OpenAIAgent.mk false (OpenAIAgent.history a) (OpenAIAgent.currentHandler a)
    (OpenAIAgent.pendingToolCalls a).

(** [FinalizeInteraction] *)
Definition FinalizeInteraction (a : OpenAIAgent.t) : OpenAIAgent.t :=
  OpenAIAgent.mk false (OpenAIAgent.history a) None (OpenAIAgent.pendingToolCalls a).

(** ** Vocabulary of the properties *)

(** *** The outbound sequence *)

Definition issues_calls (m : openai.ChatCompletionMessage.t) : Prop :=
  openai.ChatCompletionMessage.Role m = openai.ChatMessageRoleAssistant
  ∧ openai.ChatCompletionMessage.ToolCalls m ≠ [].

Definition assistant_text (m : openai.ChatCompletionMessage.t) : Prop :=
  openai.ChatCompletionMessage.Role m = openai.ChatMessageRoleAssistant
  ∧ openai.ChatCompletionMessage.ToolCalls m = [].

Definition result_for (id : string) (m : openai.ChatCompletionMessage.t) : Prop :=
  openai.ChatCompletionMessage.Role m = openai.ChatMessageRoleTool
  ∧ openai.ChatCompletionMessage.ToolCallID m = id.

(** No assistant text entry stands after an entry that issues tool calls and
    before the result of one of these calls: between the two there is a
    result for every call of the issuing entry. *)
Definition results_before_text (out : list openai.ChatCompletionMessage.t) : Prop :=
  ∀ i j call text tc,
    out !! i = Some call → issues_calls call →
    out !! j = Some text → assistant_text text →
    i < j → tc ∈ openai.ChatCompletionMessage.ToolCalls call →
    ∃ k r, i < k < j ∧ out !! k = Some r ∧ result_for (openai.ToolCall.ID tc) r.

(** The same for a sequence that continues one in which the calls
    [expected] are still without a result: before an assistant text entry
    there is also a result for each of them. *)
Definition results_before_text_after
    (expected : gmap string bool) (out : list openai.ChatCompletionMessage.t) : Prop :=
  ∀ j text,
    out !! j = Some text → assistant_text text →
    (∀ id, is_Some (expected !! id) →
           ∃ k r, k < j ∧ out !! k = Some r ∧ result_for id r)
    ∧ (∀ i call tc,
         out !! i = Some call → issues_calls call →
         i < j → tc ∈ openai.ChatCompletionMessage.ToolCalls call →
         ∃ k r, i < k < j ∧ out !! k = Some r ∧ result_for (openai.ToolCall.ID tc) r).

(** *** The stream *)

Definition first_choice (received : Z * openai.ChatCompletionStreamResponse.t)
  : option openai.Choice.t :=
  head (openai.ChatCompletionStreamResponse.Choices received.2).

(** The finish marker a response delivers, [""] for none. *)
Definition finish_marker (received : Z * openai.ChatCompletionStreamResponse.t) : string :=
  from_option openai.Choice.FinishReason "" (first_choice received).

(** The text fragment a response delivers, [""] for none. *)
Definition text_of (received : Z * openai.ChatCompletionStreamResponse.t) : string :=
  from_option (λ c, openai.Delta.Content (openai.Choice.Delta c)) "" (first_choice received).

(** The tool-call data a response delivers. *)
Definition tool_calls_of (received : Z * openai.ChatCompletionStreamResponse.t)
  : list openai.ToolCall.t :=
  from_option (λ c, default [] (openai.Delta.ToolCalls (openai.Choice.Delta c))) []
    (first_choice received).

Definition carries_tool_calls (received : Z * openai.ChatCompletionStreamResponse.t) : Prop :=
  tool_calls_of received ≠ [].

(** The text fragments of a stream, in order. *)
Definition text_fragments (responses : list (Z * openai.ChatCompletionStreamResponse.t))
  : list string :=
  filter (λ s, s ≠ "") (text_of <$> responses).

(** The call ids of a stream, in the order of their first occurrence. *)
Fixpoint first_occurrences (ids : list string) : list string :=
  match ids with
  | [] => []
  | id :: rest => id :: filter (λ id', id' ≠ id) (first_occurrences rest)
  end.

Definition call_ids (responses : list (Z * openai.ChatCompletionStreamResponse.t))
  : list string :=
  filter (λ s, s ≠ "") (responses ≫= λ r, openai.ToolCall.ID <$> tool_calls_of r).

Definition first_seen (responses : list (Z * openai.ChatCompletionStreamResponse.t))
  : list string :=
  first_occurrences (call_ids responses).

(** *** The calls of the handler *)

(** The accumulated content carried by the "message" items, in order. *)
Definition message_contents (calls : list Delivery.t) : list string :=
  omap (λ d,
          if (ResponseItem.Type_ (Delivery.item d) =? "message")%string
          then Message.Content <$> ResponseItem.Message (Delivery.item d)
          else None) calls.

(** The ids carried by the "function_call" items, in order. *)
Definition function_call_ids (calls : list Delivery.t) : list string :=
  omap (λ d,
          if (ResponseItem.Type_ (Delivery.item d) =? "function_call")%string
          then FunctionCall.ID <$> ResponseItem.FunctionCall (Delivery.item d)
          else None) calls.

Definition followup_completes (calls : list Delivery.t) : list Delivery.t :=
  filter (λ d, ResponseItem.Type_ (Delivery.item d) = "followup_complete") calls.

(** The call the delivery [d] announces is pending when [d] is made. *)
Definition pending_at_delivery (d : Delivery.t) : Prop :=
  ∀ call, ResponseItem.Type_ (Delivery.item d) = "function_call" →
          ResponseItem.FunctionCall (Delivery.item d) = Some call →
          Delivery.pendingThen d !! FunctionCall.ID call = Some true.

(** *** Strings *)

(** [f1 + f2 + ... + fn] *)
Definition concatenation (fs : list string) : string :=
  foldr String.append "" fs.

(** [base + f1], [base + f1 + f2], ... *)
Fixpoint cumulative (base : string) (fs : list string) : list string :=
  match fs with
  | [] => []
  | f :: rest => (base +:+ f) :: cumulative (base +:+ f) rest
  end.

(** After the fragment [k] (counting from 1) the content is [f1 + ... + fk]. *)
Definition cumulative_contents (fs contents : list string) : Prop :=
  length contents = length fs
  ∧ ∀ k, k < length fs → contents !! k = Some (concatenation (take (S k) fs)).

Definition substring_of (substr s : string) : Prop :=
  ∃ before after, s = before +:+ substr +:+ after.

Definition quoted (s : string) : string :=
  String dquote (s +:+ String dquote EmptyString).

(** The text [{"error":"execution cancelled by user"}]. *)
Definition cancelled_by_user : string :=
  "{" +:+ quoted "error" +:+ ":" +:+ quoted "execution cancelled by user" +:+ "}".

(** The failure of a turn: the stream cannot be opened, or [Recv] fails
    before [io.EOF] (a transport error, a cancelled context). *)
Definition stream_fails (res : CreateResult) : Prop :=
  match res with
  | CreateError _ => True
  | Created stream => Stream.ending stream ≠ EOF
  end.

(** A terminal finish marker: "stop" or "tool_calls". *)
Definition terminal_marker (received : Z * openai.ChatCompletionStreamResponse.t) : Prop :=
  finish_marker received = "stop" ∨ finish_marker received = "tool_calls".

(** *** Two readings of the spec that the code does not follow, as stated *)

(** The "function_call" items of a turn finalized by a "tool_calls" marker
    come in the order in which the ids were first seen. *)
Definition function_calls_in_first_seen_order : Prop :=
  ∀ env a h messages handler pre fin r,
    range_permutes (Env.order env) →
    OpenAIAgent.history a = Some h →
    Env.CreateChatCompletionStream env
      (SendMessage_request env (OpenAIAgent.pendingToolCalls a) h messages)
    = Created (Stream.mk (pre ++ [fin]) EOF) →
    finish_marker fin = "tool_calls" →
    Forall (λ received, finish_marker received ≠ "tool_calls") pre →
    2 ≤ length (first_seen (pre ++ [fin])) →
    SendMessage env a messages handler = Some r →
    function_call_ids (Run.calls r) = first_seen (pre ++ [fin]).

(** A stream that reaches [io.EOF] without a terminal finish marker makes
    [SendMessage] return an error. *)
Definition eof_without_marker_is_an_error : Prop :=
  ∀ env a h messages handler responses r,
    OpenAIAgent.history a = Some h →
    Env.CreateChatCompletionStream env
      (SendMessage_request env (OpenAIAgent.pendingToolCalls a) h messages)
    = Created (Stream.mk responses EOF) →
    Forall (λ received, ¬ terminal_marker received) responses →
    SendMessage env a messages handler = Some r →
    (Run.ret r).2 ≠ None.

(** ** Concrete streams and a concrete session *)

Definition text_delta (since : Z) (content : string)
  : Z * openai.ChatCompletionStreamResponse.t :=
  (since, openai.ChatCompletionStreamResponse.mk
            [openai.Choice.mk (openai.Delta.mk "" content None) ""]).

Definition call_delta (since : Z) (id name arguments : string)
  : Z * openai.ChatCompletionStreamResponse.t :=
  (since, openai.ChatCompletionStreamResponse.mk
            [openai.Choice.mk
               (openai.Delta.mk "" ""
                  (Some [openai.ToolCall.mk id openai.ToolTypeFunction
                           (openai.FunctionCall.mk name arguments)]))
               ""]).

Definition finish (since : Z) (reason : string)
  : Z * openai.ChatCompletionStreamResponse.t :=
  (since, openai.ChatCompletionStreamResponse.mk
            [openai.Choice.mk (openai.Delta.mk "" "" None) reason]).

(** An environment whose client answers every request with [res], whose
    window is the whole history, and whose range loops follow [ord]. *)
Definition answering (ord : RangeOrder) (res : CreateResult) : Env.t :=
  Env.mk (λ h, h) (λ _, res) ord.

Definition in_key_order : RangeOrder := λ _ ks, ks.
Definition in_reverse_key_order : RangeOrder := λ _ ks, reverse ks.

(** The agent [NewOpenAIAgent] returns, without a system prompt. *)
Definition new_agent : OpenAIAgent.t := OpenAIAgent.mk false (Some []) None ∅.

Definition user_message (content : string) : Message.t :=
  Message.mk openai.ChatMessageRoleUser content [] "" "".

(** A session of four calls. The first turn asks for the call c1. The
    follow-up of its result says a few words and asks for the call c2. The
    follow-up of that result is plain text. Then the user writes again. *)
Definition turn1_stream : Stream.t :=
  Stream.mk [call_delta 5 "c1" "list_directory" "{}"; finish 9 "tool_calls"] EOF.

Definition turn2_stream : Stream.t :=
  Stream.mk [text_delta 3 "Let me "; text_delta 4 "check.";
             call_delta 6 "c2" "read_file" "{}"; finish 8 "tool_calls"] EOF.

Definition turn3_stream : Stream.t :=
  Stream.mk [text_delta 2 "Done."; finish 3 "stop"] EOF.

Definition after_turn1 : Run.t SendMessageReturn :=
  SendMessage_on (answering in_key_order (Created turn1_stream)) new_agent []
    [user_message "list the files"] 1.

Definition after_turn2 : Run.t (option string) :=
  SendFunctionResult (answering in_key_order (Created turn2_stream))
    (Run.agent after_turn1) "c1" "list_directory" "a.txt" true.

Definition after_turn3 : Run.t (option string) :=
  SendFunctionResult (answering in_key_order (Created turn3_stream))
    (Run.agent after_turn2) "c2" "read_file" "hello" true.

Definition session_log : ConversationHistory :=
  default [] (OpenAIAgent.history (Run.agent after_turn3)).

(** A turn that asks for two calls and ends with the marker. *)
Definition two_calls_stream : Stream.t :=
  Stream.mk [call_delta 1 "c1" "shell" "{}"; call_delta 2 "c2" "shell" "{}";
             finish 3 "tool_calls"] EOF.

(** A turn of text whose stream ends without a marker. *)
Definition unmarked_stream : Stream.t :=
  Stream.mk [text_delta 1 "Hel"; text_delta 2 "lo"] EOF.

(** ** The rest of the agent *)

(** [NewOpenAIAgent], as far as the fields of the model go. The outcome of
    [NewConversationHistory(historyOpts)], an error or the initial history,
    is the argument [created]: the function is in a file that is not part of
    the sources at hand. *)
Definition NewOpenAIAgent (APIKey : string) (created : string + ConversationHistory)
  : string + OpenAIAgent.t :=
  if (APIKey =? "")%string then inl "OpenAI API key is required"
  else
    match created with
    | inl err => inl ("failed to initialize conversation history: " +:+ err)
    | inr history => inr (OpenAIAgent.mk false (Some history) None ∅)
    end.

(** Modelled from the spec: [GetMessages] of [ConversationHistory], which is
    not part of the sources at hand, returns the entries of the log in
    order. *)
Definition GetMessages (h : ConversationHistory) : list Message.t := h.

(** The loop [for i := len(messages) - 1; i >= 0; i--] of
    [GetLastAssistantMessage], on the entries from the last to the first. *)
Fixpoint lastAssistant (backwards : list Message.t) : string * bool :=
  match backwards with
  | [] => ("", false)
  | m :: rest =>
      if (Message.Role m =? "assistant")%string then (Message.Content m, true)
      else lastAssistant rest
  end.

(** [GetLastAssistantMessage] *)
Definition GetLastAssistantMessage (a : OpenAIAgent.t) : string * bool :=
  match OpenAIAgent.history a with
  | None => ("", false)
  | Some h =>
      match GetMessages h with
      | [] => ("", false)
      | messages => lastAssistant (reverse messages)
      end
  end.

(** The agents that [NewOpenAIAgent] returns and the agents that the methods
    of the model leave. *)
Inductive reachable : OpenAIAgent.t → Prop :=
| reach_NewOpenAIAgent APIKey created a :
    NewOpenAIAgent APIKey created = inr a → reachable a
| reach_SendMessage env a messages handler r :
    reachable a → SendMessage env a messages handler = Some r → reachable (Run.agent r)
| reach_SendFunctionResult env a callID functionName output success :
    reachable a →
    reachable (Run.agent (SendFunctionResult env a callID functionName output success))
| reach_AddSystemMessage a content :
    reachable a → reachable (AddSystemMessage a content).1
| reach_Cancel a : reachable a → reachable (Cancel a)
| reach_FinalizeInteraction a : reachable a → reachable (FinalizeInteraction a).

(** ** More vocabulary *)

(** The tool-call chunks of a stream, in order, and those of one id. *)
Definition chunks_of (responses : list (Z * openai.ChatCompletionStreamResponse.t))
  : list openai.ToolCall.t :=
  responses ≫= tool_calls_of.

Definition chunks_for (id : string) (chunks : list openai.ToolCall.t)
  : list openai.ToolCall.t :=
  filter (λ c, openai.ToolCall.ID c = id) chunks.

Definition chunk_arguments (chunks : list openai.ToolCall.t) : string :=
  concatenation ((λ c, openai.FunctionCall.Arguments (openai.ToolCall.Function c)) <$> chunks).

(** The call that the chunks with the id [id] spell: the name that the first
    of them gives and the arguments of all of them, one after the other.
    There is none for the empty id. *)
Definition assembled (chunks : list openai.ToolCall.t) (id : string)
  : option openai.FunctionCall.t :=
  if (id =? "")%string then None
  else
    match chunks_for id chunks with
    | [] => None
    | c :: _ =>
        Some (openai.FunctionCall.mk
                (openai.FunctionCall.Name (openai.ToolCall.Function c))
                (chunk_arguments (chunks_for id chunks)))
    end.

(** The call that the chunks [chunks], all of one id, make of the call [o]
    that is there already, if any. *)
Definition extended (o : option openai.FunctionCall.t) (chunks : list openai.ToolCall.t)
  : option openai.FunctionCall.t :=
  match o, chunks with
  | Some call, _ =>
      Some (openai.FunctionCall.mk (openai.FunctionCall.Name call)
              (openai.FunctionCall.Arguments call +:+ chunk_arguments chunks))
  | None, [] => None
  | None, c :: _ =>
      Some (openai.FunctionCall.mk
              (openai.FunctionCall.Name (openai.ToolCall.Function c))
              (chunk_arguments chunks))
  end.

(** The first tool-call chunk of each response that has one. *)
Definition first_chunks (responses : list (Z * openai.ChatCompletionStreamResponse.t))
  : list openai.ToolCall.t :=
  omap (λ r, head (tool_calls_of r)) responses.

(** The call under construction in the follow-up loop, with its id. *)
Definition under_construction (st : Followup.t) : option (openai.FunctionCall.t * string) :=
  (λ call, (call, Followup.currentFunctionCallID st)) <$> Followup.currentFunctionCall st.

(** What the chunks [chunks] make of the call under construction [o]: the
    first chunk gives the name and the id if no call is there yet, and every
    chunk adds its arguments, whatever its id. *)
Definition followup_extended (o : option (openai.FunctionCall.t * string))
    (chunks : list openai.ToolCall.t) : option (openai.FunctionCall.t * string) :=
  match o, chunks with
  | Some (call, id), _ =>
      Some (openai.FunctionCall.mk (openai.FunctionCall.Name call)
              (openai.FunctionCall.Arguments call +:+ chunk_arguments chunks), id)
  | None, [] => None
  | None, c :: _ =>
      Some (openai.FunctionCall.mk
              (openai.FunctionCall.Name (openai.ToolCall.Function c))
              (chunk_arguments chunks), openai.ToolCall.ID c)
  end.

(** An entry that the follow-up loop commits for a call. *)
Definition nested_call_entry (m : Message.t) : Prop :=
  Message.Role m = openai.ChatMessageRoleAssistant
  ∧ Message.Content m = ""
  ∧ length (Message.ToolCalls m) = 1.

(** The entry that the follow-up loop commits when it delivers the
    "function_call" item of [call]. *)
Definition nested_entry_of (call : FunctionCall.t) : Message.t :=
  Message.mk openai.ChatMessageRoleAssistant ""
    [ToolCall.mk (FunctionCall.ID call) openai.ToolTypeFunction
       (FunctionCall.mk (FunctionCall.Name call) (FunctionCall.Arguments call) "")] "" "".

(** The entry with the text of a follow-up whose client answered [res]:
    there is one if the stream was created and reached EOF with some text. *)
Definition followup_text_entry (res : CreateResult) : list Message.t :=
  match res with
  | Created (Stream.mk responses EOF) =>
      let text := concatenation (text_fragments responses) in
      if nonempty text
      then [Message.mk openai.ChatMessageRoleAssistant text [] "" ""]
      else []
  | _ => []
  end.

(** Every call of the handler in [calls] is made while the pending map
    holds exactly the ids in [seen] and the ids that the calls up to and
    including this one have announced. *)
Fixpoint pending_follows_calls (seen : gset string) (calls : list Delivery.t) : Prop :=
  match calls with
  | [] => True
  | d :: rest =>
      dom (Delivery.pendingThen d) = seen ∪ list_to_set (function_call_ids [d])
      ∧ pending_follows_calls (seen ∪ list_to_set (function_call_ids [d])) rest
  end.

(** The role a response announces, [""] for none, and the role in force
    after a stream: the last one announced, "assistant" if there is none. *)
Definition role_of (received : Z * openai.ChatCompletionStreamResponse.t) : string :=
  from_option (λ c, openai.Delta.Role (openai.Choice.Delta c)) "" (first_choice received).

Definition role_after (responses : list (Z * openai.ChatCompletionStreamResponse.t))
  : string :=
  default openai.ChatMessageRoleAssistant
    (last (filter (λ s, s ≠ "") (role_of <$> responses))).

(** The calls carried by the "function_call" items, in order. *)
Definition function_calls (calls : list Delivery.t) : list FunctionCall.t :=
  omap (λ d,
          if (ResponseItem.Type_ (Delivery.item d) =? "function_call")%string
          then ResponseItem.FunctionCall (Delivery.item d)
          else None) calls.

(** The entry that commits the call [call] with the id [id]. *)
Definition committed_call (id : string) (call : openai.FunctionCall.t) : ToolCall.t :=
  ToolCall.mk id openai.ToolTypeFunction
    (FunctionCall.mk (openai.FunctionCall.Name call)
       (if (openai.FunctionCall.Arguments call =? "")%string then "{}"
        else openai.FunctionCall.Arguments call) "").

Definition is_assistant_text (m : openai.ChatCompletionMessage.t) : bool :=
  (openai.ChatCompletionMessage.Role m =? openai.ChatMessageRoleAssistant)%string
  && (length (openai.ChatCompletionMessage.ToolCalls m) =? 0).

Definition not_assistant (m : Message.t) : Prop :=
  Message.Role m ≠ openai.ChatMessageRoleAssistant.

(** * Properties *)

(** ** Strings *)

Lemma append_nil_l (t : string) : "" +:+ t = t.
Proof. reflexivity. Qed.

Lemma append_cons (c : ascii) (s t : string) : String c s +:+ t = String c (s +:+ t).
Proof. reflexivity. Qed.

Lemma append_empty_r (s : string) : s +:+ "" = s.
Proof. induction s; rewrite ?append_cons; [done | congruence]. Qed.

Lemma append_assoc (s t u : string) : (s +:+ t) +:+ u = s +:+ (t +:+ u).
Proof. induction s; rewrite ?append_cons, ?append_nil_l; congruence. Qed.

Lemma prefix_true_iff (p s : string) :
  String.prefix p s = true ↔ ∃ t, s = p +:+ t.
Proof.
  revert s. induction p as [|c p IH]; intros s.
  - split; [intros _; by exists s | by destruct s].
  - destruct s as [|c' s]; simpl.
    + split; [done | intros [t Ht]; discriminate].
    + setoid_rewrite append_cons.
      destruct (Ascii.ascii_dec c c') as [->|Hne].
      * rewrite IH. split; intros [t Ht]; exists t; congruence.
      * split; [done | intros [t Ht]; congruence].
Qed.

Lemma Contains_unfold (s substr : string) :
  Contains s substr =
  String.prefix substr s ||
  match s with EmptyString => false | String _ s' => Contains s' substr end.
Proof. by destruct s. Qed.

Lemma Contains_true_iff (s substr : string) :
  Contains s substr = true ↔ substring_of substr s.
Proof.
  split.
  - induction s as [|c s IH]; rewrite Contains_unfold; intros H;
      apply orb_prop in H as [H|H]; try discriminate.
    + apply prefix_true_iff in H as [t ->]. by exists "", t.
    + apply prefix_true_iff in H as [t ->]. by exists "", t.
    + destruct (IH H) as (b & a & ->). by exists (String c b), a.
  - intros (b & a & ->). induction b as [|c b IH]; rewrite Contains_unfold, ?append_cons.
    + apply orb_true_intro. left. apply prefix_true_iff. by exists a.
    + apply orb_true_intro. right. exact IH.
Qed.

Lemma nonempty_true (s : string) : nonempty s = true ↔ s ≠ "".
Proof.
  unfold nonempty. destruct (String.eqb_spec s ""); split; naive_solver.
Qed.

Lemma nonempty_false (s : string) : nonempty s = false ↔ s = "".
Proof.
  unfold nonempty. destruct (String.eqb_spec s ""); split; naive_solver.
Qed.

(** The escapes of [json_string] on the bytes that [encoding/json] does not
    copy: backspace and form feed, a control byte, the HTML characters, a
    byte that starts no UTF-8 sequence, a truncated sequence, a surrogate,
    U+2028 and U+2029; a well-formed rune is copied. *)
Lemma json_escape_escapes :
  let byte n := String (ascii_of_nat n) EmptyString in
  let esc s := String backslash s in
  json_escape (byte 8 +:+ byte 12 +:+ byte 1) = esc "b" +:+ esc "f" +:+ esc "u0001"
  ∧ json_escape "<a&b>" = esc "u003ca" +:+ esc "u0026b" +:+ esc "u003e"
  ∧ json_escape (byte 255 +:+ "a") = esc "ufffda"
  ∧ json_escape ("a" +:+ byte 195) = "a" +:+ esc "ufffd"
  ∧ json_escape (byte 237 +:+ byte 160 +:+ byte 128) = esc "ufffd" +:+ esc "ufffd" +:+ esc "ufffd"
  ∧ json_escape (byte 226 +:+ byte 128 +:+ byte 168 +:+ "a") = esc "u2028a"
  ∧ json_escape (byte 226 +:+ byte 128 +:+ byte 169) = esc "u2029"
  ∧ json_escape (byte 195 +:+ byte 169 +:+ byte 127) = byte 195 +:+ byte 169 +:+ byte 127.
Proof. by vm_compute. Qed.

(** ** Ranging over a map *)

Lemma go_range_keys {V} (ord : RangeOrder) (site : RangeSite) (m : gmap string V) :
  range_permutes ord →
  (go_range ord site m).*1 = ord site (elements (dom m)).
Proof.
  intros Hord. unfold go_range.
  assert (Hin : ∀ k, k ∈ ord site (elements (dom m)) → is_Some (m !! k)).
  { intros k Hk. rewrite (Hord site _) in Hk.
    by apply elem_of_elements, elem_of_dom in Hk. }
  induction (ord site (elements (dom m))) as [|k ks IH]; [done|].
  destruct (Hin k) as [v Hv]; [left|]. simpl. rewrite Hv. simpl.
  f_equal. apply IH. intros k' Hk'. apply Hin. by right.
Qed.

Lemma go_range_keys_perm {V} (ord : RangeOrder) (site : RangeSite) (m : gmap string V) :
  range_permutes ord →
  (go_range ord site m).*1 ≡ₚ elements (dom m).
Proof. intros Hord. rewrite go_range_keys by done. apply Hord. Qed.

Lemma go_range_empty {V} (ord : RangeOrder) (site : RangeSite) :
  go_range ord site (∅ : gmap string V) = [].
Proof.
  unfold go_range. induction (ord site _) as [|k ks IH]; [done|].
  simpl. by rewrite lookup_empty.
Qed.

Lemma in_reverse_key_order_permutes : range_permutes in_reverse_key_order.
Proof. intros site ks. apply reverse_Permutation. Qed.

Lemma in_key_order_permutes : range_permutes in_key_order.
Proof. by intros site ks. Qed.

(** ** Cumulative contents *)

Lemma concatenation_app (fs gs : list string) :
  concatenation (fs ++ gs) = concatenation fs +:+ concatenation gs.
Proof.
  induction fs as [|f fs IH]; [done|].
  unfold concatenation in *. simpl. by rewrite IH, append_assoc.
Qed.

Lemma concatenation_filter (fs : list string) :
  concatenation (filter (λ s, s ≠ "") fs) = concatenation fs.
Proof.
  induction fs as [|f fs IH]; [done|].
  rewrite filter_cons. case_decide as Hf.
  - unfold concatenation in *. simpl. by rewrite IH.
  - subst f. exact IH.
Qed.

Lemma cumulative_app (base : string) (fs gs : list string) :
  cumulative base (fs ++ gs)
  = cumulative base fs ++ cumulative (base +:+ concatenation fs) gs.
Proof.
  revert base. induction fs as [|f fs IH]; intros base; simpl.
  - by rewrite append_empty_r.
  - rewrite IH. unfold concatenation. simpl. by rewrite append_assoc.
Qed.

Lemma cumulative_length (base : string) (fs : list string) :
  length (cumulative base fs) = length fs.
Proof. revert base. induction fs; intros; simpl; auto. Qed.

Lemma cumulative_lookup (base : string) (fs : list string) (k : nat) :
  k < length fs →
  cumulative base fs !! k = Some (base +:+ concatenation (take (S k) fs)).
Proof.
  revert base k. induction fs as [|f fs IH]; intros base k Hk; simpl in *; [lia|].
  destruct k as [|k].
  - simpl. by rewrite append_empty_r.
  - simpl. rewrite IH by lia. unfold concatenation. simpl. by rewrite append_assoc.
Qed.

Lemma cumulative_is_cumulative (fs : list string) :
  cumulative_contents fs (cumulative "" fs).
Proof.
  split; [apply cumulative_length|].
  intros k Hk. by rewrite cumulative_lookup.
Qed.

(** ** The calls of the handler *)

Lemma message_contents_app (xs ys : list Delivery.t) :
  message_contents (xs ++ ys) = message_contents xs ++ message_contents ys.
Proof. apply omap_app. Qed.

Lemma function_call_ids_app (xs ys : list Delivery.t) :
  function_call_ids (xs ++ ys) = function_call_ids xs ++ function_call_ids ys.
Proof. apply omap_app. Qed.

Section emit.
Context (handler : ResponseHandler) (since : Z).

Local Abbreviation emit := (foldl (SendMessage_emit handler since)).

Lemma emit_message_contents entries pending calls :
  message_contents (emit (pending, calls) entries).2 = message_contents calls.
Proof.
  revert pending calls. induction entries as [|e es IH]; intros; [done|].
  simpl. unfold SendMessage_emit at 2. simpl. rewrite IH.
  rewrite message_contents_app. simpl. apply app_nil_r.
Qed.

Lemma emit_function_call_ids entries pending calls :
  function_call_ids (emit (pending, calls) entries).2
  = function_call_ids calls ++ entries.*1.
Proof.
  revert pending calls. induction entries as [|e es IH]; intros; simpl.
  - by rewrite app_nil_r.
  - unfold SendMessage_emit at 2. simpl. rewrite IH.
    rewrite function_call_ids_app. simpl. by rewrite <- app_assoc.
Qed.

Lemma emit_pending_at_delivery entries pending calls :
  Forall pending_at_delivery calls →
  Forall pending_at_delivery (emit (pending, calls) entries).2.
Proof.
  revert pending calls. induction entries as [|e es IH]; intros pending calls Hc; [done|].
  simpl. unfold SendMessage_emit at 2. simpl. apply IH.
  apply Forall_app. split; [done|]. apply Forall_singleton.
  intros call _ [= <-]. simpl. apply lookup_insert_eq.
Qed.

Lemma emit_grows entries pending calls :
  ∃ added, (emit (pending, calls) entries).2 = calls ++ added
           ∧ Forall (λ d, ResponseItem.Type_ (Delivery.item d) = "function_call") added.
Proof.
  revert pending calls. induction entries as [|e es IH]; intros pending calls.
  - exists []. by rewrite app_nil_r.
  - simpl. unfold SendMessage_emit at 2. simpl.
    edestruct IH as (added & -> & Hadded).
    eexists (_ :: added). rewrite <- app_assoc. split; [done|].
    by constructor.
Qed.

Lemma emit_pending_dom entries pending calls :
  dom (emit (pending, calls) entries).1 = dom pending ∪ list_to_set entries.*1.
Proof.
  revert pending calls. induction entries as [|e es IH]; intros pending calls; simpl.
  - set_solver.
  - unfold SendMessage_emit at 2. simpl. rewrite IH, dom_insert_L. set_solver.
Qed.

End emit.

(** ** One response of the [SendMessage] loop *)

Ltac open_response received :=
  unfold SendMessage_recv, text_of, tool_calls_of, finish_marker,
    carries_tool_calls, first_choice in *;
  destruct received as [?since [choices]]; simpl in *;
  destruct choices as [|[[?role ?content ?toolCalls] ?reason] ?]; simpl in *.

Section recv.
Context (ord : RangeOrder) (handler : ResponseHandler).

Lemma recv_processing_stays n received st :
  Turn.processingToolCall st = true →
  Turn.processingToolCall (SendMessage_recv ord handler n received st) = true.
Proof. intros H. open_response received; [done|]. by rewrite H. Qed.

Lemma recv_processing_carries n received st :
  carries_tool_calls received →
  Turn.processingToolCall (SendMessage_recv ord handler n received st) = true.
Proof.
  intros H. open_response received; [done|].
  destruct toolCalls as [[|]|]; simpl in *; try done. apply orb_true_r.
Qed.

Lemma recv_processing_idle n received st :
  ¬ carries_tool_calls received →
  Turn.processingToolCall (SendMessage_recv ord handler n received st)
  = Turn.processingToolCall st.
Proof.
  intros H. open_response received; [done|].
  destruct toolCalls as [[|]|]; simpl in *; try apply orb_false_r.
  by destruct H.
Qed.

(** In tool-call mode a response adds no "message" item and no text. *)
Lemma recv_locked n received st :
  Turn.processingToolCall (SendMessage_recv ord handler n received st) = true →
  Turn.currentContent (SendMessage_recv ord handler n received st) = Turn.currentContent st
  ∧ ∃ added,
      Turn.calls (SendMessage_recv ord handler n received st) = Turn.calls st ++ added
      ∧ Forall (λ d, ResponseItem.Type_ (Delivery.item d) = "function_call") added.
Proof.
  open_response received.
  { intros _. split; [done|]. exists []. by rewrite app_nil_r. }
  intros ->. rewrite andb_false_r. split; [done|].
  destruct (reason =? "tool_calls")%string.
  - apply emit_grows.
  - exists []. by rewrite app_nil_r.
Qed.

(** Before tool-call mode a response with text adds one "message" item,
    which carries the text so far. *)
Lemma recv_text n received st :
  Turn.processingToolCall (SendMessage_recv ord handler n received st) = false →
  Turn.currentContent (SendMessage_recv ord handler n received st)
  = Turn.currentContent st +:+ text_of received
  ∧ message_contents (Turn.calls (SendMessage_recv ord handler n received st))
    = message_contents (Turn.calls st)
      ++ cumulative (Turn.currentContent st) (filter (λ s, s ≠ "") [text_of received]).
Proof.
  open_response received.
  { intros _. by rewrite append_empty_r, app_nil_r. }
  intros ->. rewrite andb_true_r.
  assert (Hemit : ∀ calls,
    message_contents
      (if (reason =? "tool_calls")%string
       then foldl (SendMessage_emit handler since) (Turn.pendingToolCalls st, calls)
              (go_range ord (AtFinish n)
                 match toolCalls with
                 | Some _ | _ => Turn.accumulatingToolCalls st
                 end)
       else (Turn.pendingToolCalls st, calls)).2 = message_contents calls).
  { intros calls. destruct (reason =? "tool_calls")%string; [|done].
    apply emit_message_contents. }
  rewrite Hemit. rewrite filter_cons, filter_nil.
  destruct (nonempty content) eqn:Hc.
  - apply nonempty_true in Hc. rewrite decide_True by done.
    by rewrite message_contents_app.
  - apply nonempty_false in Hc as ->. rewrite decide_False by naive_solver.
    by rewrite append_empty_r, app_nil_r.
Qed.

(** Every "function_call" item is delivered with its id pending. *)
Lemma recv_pending_at_delivery n received st :
  Forall pending_at_delivery (Turn.calls st) →
  Forall pending_at_delivery (Turn.calls (SendMessage_recv ord handler n received st)).
Proof.
  intros H. open_response received; [done|].
  destruct (nonempty content && _); destruct (reason =? "tool_calls")%string; simpl;
    try apply emit_pending_at_delivery; try done;
    (apply Forall_app; split; [done|]; apply Forall_singleton; by intros call).
Qed.

End recv.

(** ** The [SendMessage] loop *)

Section loop.
Context (ord : RangeOrder) (handler : ResponseHandler).

Lemma loop_app n rs1 rs2 st :
  SendMessage_loop ord handler n (rs1 ++ rs2) st
  = SendMessage_loop ord handler (n + length rs1) rs2 (SendMessage_loop ord handler n rs1 st).
Proof.
  revert n st. induction rs1 as [|r rs1 IH]; intros n st; simpl.
  - by rewrite Nat.add_0_r.
  - by rewrite IH, Nat.add_succ_r.
Qed.

Lemma text_fragments_cons received rs :
  text_fragments (received :: rs)
  = filter (λ s, s ≠ "") [text_of received] ++ text_fragments rs.
Proof. unfold text_fragments. by rewrite fmap_cons, <- filter_app. Qed.

(** As long as no response carries tool-call data, the loop stays out of
    tool-call mode and its "message" items carry the cumulative text. *)
Lemma loop_text n rs st :
  Forall (λ received, ¬ carries_tool_calls received) rs →
  Turn.processingToolCall st = false →
  let st' := SendMessage_loop ord handler n rs st in
  Turn.processingToolCall st' = false
  ∧ Turn.currentContent st' = Turn.currentContent st +:+ concatenation (text_fragments rs)
  ∧ message_contents (Turn.calls st')
    = message_contents (Turn.calls st) ++ cumulative (Turn.currentContent st) (text_fragments rs).
Proof.
  revert n st. induction rs as [|r rs IH]; intros n st Hrs Hst; simpl.
  - by rewrite append_empty_r, app_nil_r.
  - apply Forall_cons in Hrs as [Hr Hrs].
    pose proof (recv_processing_idle ord handler n r st Hr) as Hp. rewrite Hst in Hp.
    destruct (recv_text ord handler n r st Hp) as [Hcontent Hcalls].
    destruct (IH (S n) _ Hrs Hp) as (IHp & IHcontent & IHcalls).
    rewrite text_fragments_cons, cumulative_app, concatenation_app.
    assert (Hone : concatenation (filter (λ s, s ≠ "") [text_of r]) = text_of r).
    { rewrite concatenation_filter. unfold concatenation. simpl. apply append_empty_r. }
    rewrite Hone, IHcontent, IHcalls, Hcontent, Hcalls.
    by rewrite append_assoc, app_assoc.
Qed.

(** Once in tool-call mode, the loop adds "function_call" items only. *)
Lemma loop_locked n rs st :
  Turn.processingToolCall st = true →
  let st' := SendMessage_loop ord handler n rs st in
  Turn.processingToolCall st' = true
  ∧ Turn.currentContent st' = Turn.currentContent st
  ∧ ∃ added,
      Turn.calls st' = Turn.calls st ++ added
      ∧ Forall (λ d, ResponseItem.Type_ (Delivery.item d) = "function_call") added.
Proof.
  revert n st. induction rs as [|r rs IH]; intros n st Hst; simpl.
  - split_and!; [done..|]. exists []. by rewrite app_nil_r.
  - pose proof (recv_processing_stays ord handler n r st Hst) as Hp.
    destruct (recv_locked ord handler n r st Hp) as (Hcontent & added1 & Hcalls & Hadded1).
    destruct (IH (S n) _ Hp) as (IHp & IHcontent & added2 & IHcalls & Hadded2).
    split_and!; [done|congruence|].
    exists (added1 ++ added2). rewrite IHcalls, Hcalls, <- app_assoc. split; [done|].
    by apply Forall_app.
Qed.

Lemma loop_pending_at_delivery n rs st :
  Forall pending_at_delivery (Turn.calls st) →
  Forall pending_at_delivery (Turn.calls (SendMessage_loop ord handler n rs st)).
Proof.
  revert n st. induction rs as [|r rs IH]; intros n st Hst; simpl; [done|].
  by apply IH, recv_pending_at_delivery.
Qed.

(** *** The accumulated calls *)

Lemma accumulate_dom acc toolCallChunk :
  dom (accumulate acc toolCallChunk)
  = dom acc ∪ list_to_set (filter (λ s, s ≠ "") [openai.ToolCall.ID toolCallChunk]).
Proof.
  unfold accumulate. rewrite filter_cons, filter_nil.
  destruct (String.eqb_spec (openai.ToolCall.ID toolCallChunk) "") as [Heq|Hne].
  - rewrite decide_False by naive_solver. set_solver.
  - rewrite decide_True by done.
    destruct (acc !! openai.ToolCall.ID toolCallChunk) eqn:Hacc;
      destruct (nonempty _); rewrite ?dom_alter_L, ?dom_insert_L;
      try set_solver.
    all: apply (elem_of_dom_2 (D := gset string)) in Hacc; set_solver.
Qed.

Lemma accumulate_all_dom acc chunks :
  dom (foldl accumulate acc chunks)
  = dom acc ∪ list_to_set (filter (λ s, s ≠ "") (openai.ToolCall.ID <$> chunks)).
Proof.
  revert acc. induction chunks as [|c chunks IH]; intros acc.
  - simpl. set_solver.
  - rewrite fmap_cons. cbn [foldl]. rewrite IH, accumulate_dom, !filter_cons, filter_nil.
    case_decide; set_solver.
Qed.

Lemma recv_accumulating_dom n received st :
  dom (Turn.accumulatingToolCalls (SendMessage_recv ord handler n received st))
  = dom (Turn.accumulatingToolCalls st)
    ∪ list_to_set (filter (λ s, s ≠ "") (openai.ToolCall.ID <$> tool_calls_of received)).
Proof.
  open_response received; [set_solver|].
  destruct toolCalls as [chunks|]; simpl; [|set_solver].
  destruct (Turn.processingToolCall st); simpl.
  - apply accumulate_all_dom.
  - destruct chunks as [|c chunks]; simpl; [set_solver|].
    exact (accumulate_all_dom (Turn.accumulatingToolCalls st) (c :: chunks)).
Qed.

Lemma call_ids_cons received rs :
  call_ids (received :: rs)
  = filter (λ s, s ≠ "") (openai.ToolCall.ID <$> tool_calls_of received) ++ call_ids rs.
Proof. unfold call_ids. by rewrite bind_cons, filter_app. Qed.

Lemma loop_accumulating_dom n rs st :
  dom (Turn.accumulatingToolCalls (SendMessage_loop ord handler n rs st))
  = dom (Turn.accumulatingToolCalls st) ∪ list_to_set (call_ids rs).
Proof.
  revert n st. induction rs as [|r rs IH]; intros n st; simpl.
  - set_solver.
  - rewrite IH, recv_accumulating_dom, call_ids_cons, list_to_set_app_L. set_solver.
Qed.

(** *** The "function_call" items *)

Lemma recv_function_call_ids n received st :
  function_call_ids (Turn.calls (SendMessage_recv ord handler n received st))
  = function_call_ids (Turn.calls st)
    ++ (if (finish_marker received =? "tool_calls")%string
        then (go_range ord (AtFinish n)
                (Turn.accumulatingToolCalls (SendMessage_recv ord handler n received st))).*1
        else []).
Proof.
  open_response received; [by rewrite app_nil_r|].
  destruct (reason =? "tool_calls")%string; simpl.
  - rewrite emit_function_call_ids. f_equal.
    destruct (nonempty content && _); [|done].
    rewrite function_call_ids_app. apply app_nil_r.
  - rewrite app_nil_r. destruct (nonempty content && _); [|done].
    rewrite function_call_ids_app. apply app_nil_r.
Qed.

Lemma loop_function_call_ids_unfinished n rs st :
  Forall (λ received, finish_marker received ≠ "tool_calls") rs →
  function_call_ids (Turn.calls (SendMessage_loop ord handler n rs st))
  = function_call_ids (Turn.calls st).
Proof.
  revert n st. induction rs as [|r rs IH]; intros n st Hrs; simpl; [done|].
  apply Forall_cons in Hrs as [Hr Hrs]. rewrite IH by done.
  rewrite recv_function_call_ids.
  apply String.eqb_neq in Hr. rewrite Hr. apply app_nil_r.
Qed.

End loop.

(** *** First occurrences *)

Lemma elem_of_first_occurrences (ids : list string) (id : string) :
  id ∈ first_occurrences ids ↔ id ∈ ids.
Proof.
  induction ids as [|x ids IH]; simpl; [done|].
  rewrite !elem_of_cons, list_elem_of_filter, IH.
  destruct (decide (id = x)); naive_solver.
Qed.

Lemma NoDup_first_occurrences (ids : list string) : NoDup (first_occurrences ids).
Proof.
  induction ids as [|x ids IH]; simpl; constructor.
  - rewrite list_elem_of_filter. naive_solver.
  - by apply NoDup_filter.
Qed.

Lemma first_occurrences_elements (ids : list string) :
  elements (list_to_set ids : gset string) ≡ₚ first_occurrences ids.
Proof.
  apply NoDup_Permutation; [apply NoDup_elements | apply NoDup_first_occurrences|].
  intros id. by rewrite elem_of_elements, elem_of_list_to_set, elem_of_first_occurrences.
Qed.

(** ** Reconciliation of the pending calls *)

Lemma Cancel_keeps_pending_calls a :
  OpenAIAgent.pendingToolCalls (Cancel a) = OpenAIAgent.pendingToolCalls a
  ∧ OpenAIAgent.history (Cancel a) = OpenAIAgent.history a.
Proof. done. Qed.

Lemma SendMessage_reconcile_eq ord pending h messages :
  SendMessage_reconcile ord pending h messages
  = (h ++ (cancelled_result <$> (go_range ord AtDrain pending).*1) ++ messages, ∅).
Proof.
  unfold SendMessage_reconcile, AddMessages.
  destruct (0 <? size pending) eqn:Hsize.
  - f_equal.
    destruct (cancelled_result <$> _) as [|m ms]; destruct messages; simpl;
      by rewrite <- ?app_assoc, ?app_nil_r.
  - apply Nat.ltb_ge in Hsize.
    assert (pending = ∅) as -> by (apply map_size_empty_iff; lia).
    rewrite go_range_empty. destruct messages; simpl; by rewrite ?app_nil_r.
Qed.

Lemma cancelled_result_content callID :
  cancelled_result callID
  = Message.mk openai.ChatMessageRoleTool cancelled_by_user [] callID "".
Proof. reflexivity. Qed.

Lemma count_cancelled_results (ks : list string) (id : string) :
  NoDup ks →
  length (filter (λ m, Message.ToolCallID m = id) (cancelled_result <$> ks))
  = if decide (id ∈ ks) then 1 else 0.
Proof.
  induction 1 as [|k ks Hk Hks IH]; [done|].
  rewrite fmap_cons, filter_cons. simpl (Message.ToolCallID _).
  destruct (decide (k = id)) as [->|Hne].
  - rewrite decide_True by left. simpl. rewrite IH. by rewrite decide_False.
  - rewrite IH. apply decide_ext. rewrite elem_of_cons. naive_solver.
Qed.

(** What is pending when the loop is left was announced by the loop, if
    that holds when the loop is entered. *)
Lemma loop_pending_announced ord handler n rs st :
  dom (Turn.pendingToolCalls st) ⊆ list_to_set (function_call_ids (Turn.calls st)) →
  dom (Turn.pendingToolCalls (SendMessage_loop ord handler n rs st))
  ⊆ list_to_set (function_call_ids (Turn.calls (SendMessage_loop ord handler n rs st))).
Proof.
  revert n st. induction rs as [|r rs IH]; intros n st Hst; simpl; [done|].
  apply IH. rewrite recv_function_call_ids.
  open_response r; [by rewrite app_nil_r|].
  destruct (reason =? "tool_calls")%string; simpl.
  - rewrite emit_pending_dom, list_to_set_app_L. set_solver.
  - rewrite app_nil_r. done.
Qed.

Lemma SendMessage_commit_appends ord st h :
  SendMessage_commit ord st h = h ++ SendMessage_commit ord st [].
Proof.
  unfold SendMessage_commit, AddMessage.
  repeat match goal with |- context [if ?b then _ else _] => destruct b end;
    by rewrite ?app_nil_r.
Qed.

(** With a history, [SendMessage] returns. *)
Lemma SendMessage_returns env a h messages handler :
  OpenAIAgent.history a = Some h →
  SendMessage env a messages handler = Some (SendMessage_on env a h messages handler).
Proof. unfold SendMessage. by intros ->. Qed.

Ltac run_SendMessage Hh Hclient :=
  eexists; split; [exact (SendMessage_returns _ _ _ _ _ Hh)|];
  unfold SendMessage_on; rewrite ?Hclient, ?SendMessage_reconcile_eq; simpl.

(** C2. Whenever [SendMessage] begins while the pending map holds the ids
    c1..cn, one synthetic tool-result entry with ToolCallID ci and content
    [{"error":"execution cancelled by user"}] is appended to the history for
    each ci and no other, all of them before the new messages, and the
    pending map is empty afterwards: when the call returns, the map holds
    only ids that this call announced to the handler. *)
Theorem SendMessage_cancels_pending_calls env a h messages handler :
  range_permutes (Env.order env) →
  OpenAIAgent.history a = Some h →
  ∃ r, SendMessage env a messages handler = Some r ∧
  ∃ aborted committed,
    (∀ id, length (filter (λ m, Message.ToolCallID m = id) aborted)
           = if decide (id ∈ dom (OpenAIAgent.pendingToolCalls a)) then 1 else 0)
    ∧ Forall (λ m, m = Message.mk openai.ChatMessageRoleTool cancelled_by_user []
                         (Message.ToolCallID m) "") aborted
    ∧ SendMessage_reconcile (Env.order env) (OpenAIAgent.pendingToolCalls a) h messages
      = (h ++ aborted ++ messages, ∅)
    ∧ OpenAIAgent.history (Run.agent r) = Some (h ++ aborted ++ messages ++ committed)
    ∧ ∀ id, id ∈ dom (OpenAIAgent.pendingToolCalls (Run.agent r)) →
            id ∈ function_call_ids (Run.calls r).
Proof.
  intros Hord Hh.
  eexists. split; [exact (SendMessage_returns _ _ _ _ _ Hh)|].
  exists (cancelled_result <$> (go_range (Env.order env) AtDrain (OpenAIAgent.pendingToolCalls a)).*1).
  assert (Hks : (go_range (Env.order env) AtDrain (OpenAIAgent.pendingToolCalls a)).*1
                ≡ₚ elements (dom (OpenAIAgent.pendingToolCalls a)))
    by by apply go_range_keys_perm.
  assert (Hstart : ∀ rs,
    dom (Turn.pendingToolCalls (SendMessage_loop (Env.order env) handler 0 rs (Turn_start ∅)))
    ⊆ list_to_set (function_call_ids
        (Turn.calls (SendMessage_loop (Env.order env) handler 0 rs (Turn_start ∅))))).
  { intros rs. apply loop_pending_announced. simpl. set_solver. }
  unfold SendMessage_on. rewrite !SendMessage_reconcile_eq. simpl.
  assert (Hcount : ∀ id,
    length (filter (λ m, Message.ToolCallID m = id)
      (cancelled_result <$> (go_range (Env.order env) AtDrain (OpenAIAgent.pendingToolCalls a)).*1))
    = if decide (id ∈ dom (OpenAIAgent.pendingToolCalls a)) then 1 else 0).
  { intros id. rewrite count_cancelled_results.
    - apply decide_ext. by rewrite Hks, elem_of_elements.
    - rewrite Hks. apply NoDup_elements. }
  assert (Hshape : Forall (λ m, m = Message.mk openai.ChatMessageRoleTool cancelled_by_user []
                                     (Message.ToolCallID m) "")
    (cancelled_result <$> (go_range (Env.order env) AtDrain (OpenAIAgent.pendingToolCalls a)).*1)).
  { apply Forall_fmap, Forall_true. intros k. apply cancelled_result_content. }
  destruct (Env.CreateChatCompletionStream env _) as [err|[rs [|err]]]; simpl.
  - exists []. rewrite !app_nil_r. split_and!; [done..|]. set_solver.
  - eexists. split_and!; [done..| |].
    + by rewrite SendMessage_commit_appends, <- !app_assoc.
    + intros id Hid. apply Hstart in Hid. by apply elem_of_list_to_set in Hid.
  - exists []. rewrite !app_nil_r. split_and!; [done..|].
    intros id Hid. apply Hstart in Hid. by apply elem_of_list_to_set in Hid.
Qed.

Lemma SendMessage_cancels_pending_calls_witness :
  let env := answering in_key_order (Created turn3_stream) in
  let a := Cancel (Run.agent after_turn1) in
  let h := default [] (OpenAIAgent.history a) in
  let messages := [user_message "never mind"] in
  dom (OpenAIAgent.pendingToolCalls a) = {[ "c1" ]}
  ∧ ∃ r committed,
      SendMessage env a messages 2 = Some r
      ∧ OpenAIAgent.history (Run.agent r)
        = Some (h ++ [cancelled_result "c1"] ++ messages ++ committed).
Proof.
  intros env a h messages. split; [by vm_compute|].
  destruct (SendMessage_cancels_pending_calls env a h messages 2
              in_key_order_permutes eq_refl)
    as (r & Hrun & aborted & committed & _ & _ & Hreconcile & Hhistory & _).
  exists r, committed. split; [exact Hrun|]. rewrite Hhistory. do 2 f_equal.
  assert (Heq : (SendMessage_reconcile (Env.order env) (OpenAIAgent.pendingToolCalls a)
                   h messages).1 = h ++ [cancelled_result "c1"] ++ messages)
    by by vm_compute.
  rewrite Hreconcile in Heq. simpl in Heq.
  apply app_inv_head in Heq.
  apply (app_inv_tail messages aborted [cancelled_result "c1"]) in Heq. by rewrite Heq.
Defined.

(** ** A turn that fails *)

(** C9. If the stream of the turn cannot be opened, is cancelled, or fails
    with a transport error before EOF, [SendMessage] returns an error and
    commits no assistant entry: the history is the one committed before the
    stream was opened, that is the history the call found, the synthetic
    results for the calls that were pending, and the new messages. *)
Theorem SendMessage_failed_turn_commits_nothing env a h messages handler :
  OpenAIAgent.history a = Some h →
  stream_fails (Env.CreateChatCompletionStream env
                  (SendMessage_request env (OpenAIAgent.pendingToolCalls a) h messages)) →
  ∃ r,
  SendMessage env a messages handler = Some r
  ∧ (∃ err, Run.ret r = (false, Some err))
  ∧ OpenAIAgent.history (Run.agent r)
    = Some (h ++ (cancelled_result <$>
                    (go_range (Env.order env) AtDrain (OpenAIAgent.pendingToolCalls a)).*1)
              ++ messages).
Proof.
  intros Hh Hfails.
  eexists. split; [exact (SendMessage_returns _ _ _ _ _ Hh)|].
  unfold SendMessage_on. rewrite !SendMessage_reconcile_eq.
  destruct (Env.CreateChatCompletionStream env _) as [err|[rs [|err]]]; simpl in *.
  - eauto.
  - by destruct Hfails.
  - eauto.
Qed.

Lemma SendMessage_failed_turn_commits_nothing_witness :
  let env := answering in_key_order
               (Created (Stream.mk [text_delta 1 "Hel"] (RecvError "context canceled"))) in
  ∃ r,
    SendMessage env new_agent [user_message "hello"] 1 = Some r
    ∧ (∃ err, Run.ret r = (false, Some err))
    ∧ OpenAIAgent.history (Run.agent r) = Some [user_message "hello"].
Proof.
  intros env.
  exact (SendMessage_failed_turn_commits_nothing env new_agent [] [user_message "hello"] 1
           eq_refl ltac:(done)).
Defined.

(** ** A stream that ends without a finish marker *)

Lemma recv_ended_idle ord handler n received st :
  ¬ carries_tool_calls received →
  finish_marker received ≠ "tool_calls" →
  Turn.processingToolCall st = false →
  Turn.streamEndedWithToolCall (SendMessage_recv ord handler n received st)
  = Turn.streamEndedWithToolCall st.
Proof.
  intros Hcarries Hfinish Hst. open_response received; [done|].
  apply String.eqb_neq in Hfinish. rewrite Hfinish, Hst.
  destruct toolCalls as [[|]|]; simpl in *; try by rewrite !orb_false_r.
  by destruct Hcarries.
Qed.

Lemma loop_ended_idle ord handler n rs st :
  Forall (λ received, ¬ carries_tool_calls received) rs →
  Forall (λ received, finish_marker received ≠ "tool_calls") rs →
  Turn.processingToolCall st = false →
  Turn.streamEndedWithToolCall (SendMessage_loop ord handler n rs st)
  = Turn.streamEndedWithToolCall st.
Proof.
  revert n st. induction rs as [|r rs IH]; intros n st Hc Hf Hst; simpl; [done|].
  apply Forall_cons in Hc as [Hc Hcs]. apply Forall_cons in Hf as [Hf Hfs].
  rewrite IH; [by apply recv_ended_idle|done..|].
  by rewrite recv_processing_idle.
Qed.

Lemma recv_ended_stays ord handler n received st :
  Turn.streamEndedWithToolCall st = true →
  Turn.streamEndedWithToolCall (SendMessage_recv ord handler n received st) = true.
Proof. intros H. open_response received; [done|]. by rewrite H. Qed.

Lemma recv_ended_by ord handler n received st :
  carries_tool_calls received ∨ finish_marker received = "tool_calls" →
  Turn.streamEndedWithToolCall (SendMessage_recv ord handler n received st) = true.
Proof.
  intros H. open_response received; [by destruct H|].
  destruct H as [H| ->].
  - destruct toolCalls as [[|]|]; simpl in *; try done.
    rewrite orb_true_r. simpl. by rewrite orb_true_r.
  - apply orb_true_r.
Qed.

Lemma loop_ended_stays ord handler n rs st :
  Turn.streamEndedWithToolCall st = true →
  Turn.streamEndedWithToolCall (SendMessage_loop ord handler n rs st) = true.
Proof.
  revert n st. induction rs as [|r rs IH]; intros n st Hst; simpl; [done|].
  by apply IH, recv_ended_stays.
Qed.

Lemma loop_ended_by ord handler n rs st :
  Exists (λ received, carries_tool_calls received ∨ finish_marker received = "tool_calls") rs →
  Turn.streamEndedWithToolCall (SendMessage_loop ord handler n rs st) = true.
Proof.
  revert n st. induction rs as [|r rs IH]; intros n st Hrs; simpl.
  - by apply Exists_nil in Hrs.
  - apply Exists_cons in Hrs as [Hr|Hrs].
    + by apply loop_ended_stays, recv_ended_by.
    + by apply IH.
Qed.

Lemma recv_role ord handler n received st :
  Turn.currentRole (SendMessage_recv ord handler n received st)
  = if nonempty (role_of received) then role_of received else Turn.currentRole st.
Proof. unfold role_of. by open_response received. Qed.

Lemma loop_role ord handler n rs st :
  Turn.currentRole (SendMessage_loop ord handler n rs st)
  = default (Turn.currentRole st) (last (filter (λ s, s ≠ "") (role_of <$> rs))).
Proof.
  revert n st. induction rs as [|r rs IH]; intros n st; [done|].
  cbn [SendMessage_loop]. rewrite IH, recv_role, fmap_cons, filter_cons.
  destruct (nonempty (role_of r)) eqn:Hr.
  - apply nonempty_true in Hr. rewrite decide_True by done.
    rewrite last_cons. by destruct (last _).
  - apply nonempty_false in Hr. by rewrite decide_False by naive_solver.
Qed.

(** C7, as the code has it. A stream that reaches EOF without having
    delivered a terminal finish marker, neither "stop" nor "tool_calls", is
    not surfaced as an error: [SendMessage] returns a nil error. It returns
    true if some response carried tool-call data. If none did, it returns
    false and commits the accumulated text, when there is some, as one entry
    whose content is the text fragments one after the other and whose role
    is the last role that the stream announced, "assistant" if it announced
    none. *)
Theorem SendMessage_eof_without_marker_returns_normally
    env a h messages handler responses :
  OpenAIAgent.history a = Some h →
  Env.CreateChatCompletionStream env
    (SendMessage_request env (OpenAIAgent.pendingToolCalls a) h messages)
  = Created (Stream.mk responses EOF) →
  Forall (λ received, ¬ terminal_marker received) responses →
  ∃ r,
  SendMessage env a messages handler = Some r
  ∧ (Run.ret r).2 = None
  ∧ (Exists carries_tool_calls responses → (Run.ret r).1 = true)
  ∧ (Forall (λ received, ¬ carries_tool_calls received) responses →
     let text := concatenation (text_fragments responses) in
     (Run.ret r).1 = false
     ∧ OpenAIAgent.history (Run.agent r)
       = Some ((SendMessage_reconcile (Env.order env) (OpenAIAgent.pendingToolCalls a)
                  h messages).1
               ++ if nonempty text
                  then [Message.mk (role_after responses) text [] "" ""]
                  else [])).
Proof.
  intros Hh Hclient Hmarker.
  assert (Hfinish : Forall (λ received, finish_marker received ≠ "tool_calls") responses).
  { eapply Forall_impl; [exact Hmarker|]. intros received Hnone Htool.
    apply Hnone. by right. }
  pose proof (loop_role (Env.order env) handler 0 responses (Turn_start ∅)) as Hrole.
  simpl in Hrole.
  run_SendMessage Hh Hclient. split; [done|]. split.
  - intros Hcarries. apply loop_ended_by.
    eapply Exists_impl; [exact Hcarries|]. intros received Hreceived. by left.
  - intros Hcarries.
    pose proof (loop_ended_idle (Env.order env) handler 0 responses (Turn_start ∅)
                  Hcarries Hfinish eq_refl) as Hended.
    destruct (loop_text (Env.order env) handler 0 responses (Turn_start ∅) Hcarries eq_refl)
      as (_ & Hcontent & _).
    simpl in Hended, Hcontent. split; [done|].
    unfold SendMessage_commit. rewrite Hended, Hcontent, Hrole.
    unfold AddMessage, role_after. destruct (nonempty _); [done|by rewrite app_nil_r].
Qed.

Lemma SendMessage_eof_without_marker_returns_normally_witness :
  let stream :=
    Stream.mk [(1%Z, openai.ChatCompletionStreamResponse.mk
                     [openai.Choice.mk (openai.Delta.mk "system" "" None) ""]);
               text_delta 2 "Hel"; text_delta 3 "lo"; finish 4 "length"] EOF in
  let env := answering in_key_order (Created stream) in
  ∃ r,
    SendMessage env new_agent [user_message "hello"] 1 = Some r
    ∧ Run.ret r = (false, None)
    ∧ OpenAIAgent.history (Run.agent r)
      = Some [user_message "hello"; Message.mk "system" "Hello" [] "" ""].
Proof.
  intros stream env.
  destruct (SendMessage_eof_without_marker_returns_normally env new_agent []
              [user_message "hello"] 1 (Stream.responses stream)
              eq_refl eq_refl
              ltac:(repeat constructor; intros [Hstop|Htool]; discriminate))
    as (r & Hrun & Herr & _).
  exists r. split; [exact Hrun|].
  injection Hrun as <-. by vm_compute.
Defined.

(** C7, as stated, fails: the stream of [unmarked_stream] reaches EOF with
    no finish marker and [SendMessage] returns a nil error. *)
Lemma eof_without_marker_is_not_an_error : ¬ eof_without_marker_is_an_error.
Proof.
  intros Hclaim.
  apply (Hclaim (answering in_key_order (Created unmarked_stream)) new_agent []
           [user_message "hello"] 1 (Stream.responses unmarked_stream)
           (SendMessage_on (answering in_key_order (Created unmarked_stream)) new_agent []
              [user_message "hello"] 1));
    try reflexivity.
  repeat constructor; intros [Hstop|Htool]; discriminate.
Qed.

(** ** Tool-call mode *)

(** C6. Once a response that carries tool-call data has been processed,
    [SendMessage] delivers no further "message" item in the turn, whatever
    text arrives afterwards: the calls of the handler are those made while
    the responses before it were processed, followed by calls none of which
    is a "message" item. *)
Theorem SendMessage_no_message_after_tool_call
    env a h messages handler before received after ending :
  OpenAIAgent.history a = Some h →
  Env.CreateChatCompletionStream env
    (SendMessage_request env (OpenAIAgent.pendingToolCalls a) h messages)
  = Created (Stream.mk (before ++ received :: after) ending) →
  carries_tool_calls received →
  ∃ r later,
    SendMessage env a messages handler = Some r
    ∧ Run.calls r
    = Turn.calls (SendMessage_loop (Env.order env) handler 0 before (Turn_start ∅)) ++ later
    ∧ Forall (λ d, ResponseItem.Type_ (Delivery.item d) ≠ "message") later.
Proof.
  intros Hh Hclient Hcarries.
  assert (Hloop : ∃ later,
    Turn.calls (SendMessage_loop (Env.order env) handler 0 (before ++ received :: after)
                  (Turn_start ∅))
    = Turn.calls (SendMessage_loop (Env.order env) handler 0 before (Turn_start ∅)) ++ later
    ∧ Forall (λ d, ResponseItem.Type_ (Delivery.item d) ≠ "message") later).
  { rewrite loop_app. simpl.
    set (st := SendMessage_loop (Env.order env) handler 0 before (Turn_start ∅)).
    pose proof (recv_processing_carries (Env.order env) handler (length before) received st
                  Hcarries) as Hp.
    destruct (recv_locked _ _ _ _ _ Hp) as (_ & added1 & Hcalls1 & Hadded1).
    destruct (loop_locked (Env.order env) handler (S (length before)) after _ Hp)
      as (_ & _ & added2 & Hcalls2 & Hadded2).
    exists (added1 ++ added2). rewrite Hcalls2, Hcalls1, <- app_assoc. split; [done|].
    apply Forall_app. split; (eapply Forall_impl; [eassumption|]);
      intros d Hd; by rewrite Hd. }
  destruct Hloop as (later & Hcalls & Hlater).
  exists (SendMessage_on env a h messages handler), later.
  split; [exact (SendMessage_returns _ _ _ _ _ Hh)|]. split; [|done].
  unfold SendMessage_on. rewrite ?Hclient, ?SendMessage_reconcile_eq. simpl.
  by destruct ending.
Qed.

Lemma SendMessage_no_message_after_tool_call_witness :
  let stream := Stream.mk [text_delta 1 "One "; call_delta 2 "c1" "shell" "{}";
                           text_delta 3 "two"; finish 4 "tool_calls"] EOF in
  let env := answering in_key_order (Created stream) in
  message_contents (Run.calls (SendMessage_on env new_agent [] [] 1)) = ["One "]
  ∧ ∃ r later,
      SendMessage env new_agent [] 1 = Some r
      ∧ Run.calls r
        = Turn.calls (SendMessage_loop in_key_order 1 0 [text_delta 1 "One "] (Turn_start ∅))
          ++ later
      ∧ Forall (λ d, ResponseItem.Type_ (Delivery.item d) ≠ "message") later.
Proof.
  intros stream env. split; [by vm_compute|].
  apply (SendMessage_no_message_after_tool_call env new_agent [] [] 1
           [text_delta 1 "One "] (call_delta 2 "c1" "shell" "{}")
           [text_delta 3 "two"; finish 4 "tool_calls"] EOF eq_refl eq_refl).
  by vm_compute.
Defined.

(** ** The order of the "function_call" items *)

(** C3, as the code has it. When the stream ends with the "tool_calls"
    marker, [SendMessage] delivers one "function_call" item for each
    accumulated id and no other; the items come in the order of Go's map
    iteration, which need not be the order in which the ids were first
    seen. *)
Theorem SendMessage_function_calls_one_per_id env a h messages handler pre fin :
  range_permutes (Env.order env) →
  OpenAIAgent.history a = Some h →
  Env.CreateChatCompletionStream env
    (SendMessage_request env (OpenAIAgent.pendingToolCalls a) h messages)
  = Created (Stream.mk (pre ++ [fin]) EOF) →
  finish_marker fin = "tool_calls" →
  Forall (λ received, finish_marker received ≠ "tool_calls") pre →
  ∃ r,
  SendMessage env a messages handler = Some r
  ∧ function_call_ids (Run.calls r) ≡ₚ first_seen (pre ++ [fin])
  ∧ function_call_ids (Run.calls r)
    = Env.order env (AtFinish (length pre))
        (elements (list_to_set (call_ids (pre ++ [fin])) : gset string)).
Proof.
  intros Hord Hh Hclient Hfin Hpre. run_SendMessage Hh Hclient.
  assert (Hids :
    function_call_ids
      (Turn.calls (SendMessage_loop (Env.order env) handler 0 (pre ++ [fin]) (Turn_start ∅)))
    = Env.order env (AtFinish (length pre))
        (elements (list_to_set (call_ids (pre ++ [fin])) : gset string))).
  { pose proof (loop_accumulating_dom (Env.order env) handler 0 (pre ++ [fin]) (Turn_start ∅))
      as Hdom.
    revert Hdom. rewrite loop_app. simpl. intros Hdom.
    rewrite recv_function_call_ids, loop_function_call_ids_unfinished by done.
    rewrite Hfin. simpl. rewrite go_range_keys by done. rewrite Hdom.
    do 2 f_equal. set_solver. }
  rewrite Hids. split; [|done].
  rewrite (Hord _ _). apply first_occurrences_elements.
Qed.

Lemma SendMessage_function_calls_one_per_id_witness :
  let env := answering in_reverse_key_order (Created two_calls_stream) in
  ∃ r,
    SendMessage env new_agent [] 1 = Some r
    ∧ function_call_ids (Run.calls r) ≡ₚ ["c1"; "c2"]
    ∧ function_call_ids (Run.calls r) = ["c2"; "c1"].
Proof.
  intros env.
  destruct (SendMessage_function_calls_one_per_id env new_agent [] [] 1
              [call_delta 1 "c1" "shell" "{}"; call_delta 2 "c2" "shell" "{}"]
              (finish 3 "tool_calls") in_reverse_key_order_permutes eq_refl eq_refl eq_refl
              ltac:(by repeat constructor)) as (r & Hrun & Hperm & Horder).
  exists r. split; [exact Hrun|]. split; [exact Hperm|].
  rewrite Horder. by vm_compute.
Defined.

(** C3, as stated, fails: with two accumulated ids, first seen in the order
    c1, c2, a map iteration that visits c2 first makes the handler receive
    c2 before c1. *)
Lemma function_calls_not_in_first_seen_order : ¬ function_calls_in_first_seen_order.
Proof.
  intros Hclaim.
  specialize (Hclaim (answering in_reverse_key_order (Created two_calls_stream))
                new_agent [] [] 1
                [call_delta 1 "c1" "shell" "{}"; call_delta 2 "c2" "shell" "{}"]
                (finish 3 "tool_calls")
                (SendMessage_on (answering in_reverse_key_order (Created two_calls_stream))
                   new_agent [] [] 1)
                in_reverse_key_order_permutes eq_refl eq_refl eq_refl).
  vm_compute in Hclaim.
  assert (Heq : ["c2"; "c1"] = ["c1"; "c2"]); [|discriminate].
  apply Hclaim; [repeat constructor; discriminate | lia | reflexivity].
Qed.

(** ** The request of [SendFunctionResult] *)

Lemma results_before_text_after_cons expected expected' m out :
  results_before_text_after expected' out →
  (assistant_text m → expected = ∅) →
  (∀ id, is_Some (expected !! id) → is_Some (expected' !! id) ∨ result_for id m) →
  (issues_calls m → ∀ tc, tc ∈ openai.ChatCompletionMessage.ToolCalls m →
                          is_Some (expected' !! openai.ToolCall.ID tc)) →
  results_before_text_after expected (m :: out).
Proof.
  intros Hout Htext Hexpected Hcalls j text Hj Hjtext.
  destruct j as [|j].
  - injection Hj as <-. rewrite (Htext Hjtext). split.
    + intros id. rewrite lookup_empty. by intros [? ?].
    + intros; lia.
  - simpl in Hj. destruct (Hout j text Hj Hjtext) as [Hpending Hissued]. split.
    + intros id Hid. destruct (Hexpected id Hid) as [Hid'|Hm].
      * destruct (Hpending id Hid') as (k & r & Hk & Hr & Hres).
        exists (S k), r. split_and!; [lia|done..].
      * exists 0, m. split_and!; [lia|done..].
    + intros i call tc Hi Hcall Hij Htc. destruct i as [|i].
      * injection Hi as <-.
        destruct (Hpending _ (Hcalls Hcall tc Htc)) as (k & r & Hk & Hr & Hres).
        exists (S k), r. split_and!; [lia..|done|done].
      * simpl in Hi.
        destruct (Hissued i call tc Hi Hcall ltac:(lia) Htc) as (k & r & Hk & Hr & Hres).
        exists (S k), r. split_and!; [lia..|done|done].
Qed.

Lemma expected_after_calls (expected : gmap string bool) (tcs : list ToolCall.t) (id : string) :
  is_Some (foldl (λ e tc, <[ToolCall.ID tc := true]> e) expected tcs !! id)
  ↔ is_Some (expected !! id) ∨ id ∈ ToolCall.ID <$> tcs.
Proof.
  revert expected. induction tcs as [|tc tcs IH]; intros expected.
  - simpl. rewrite elem_of_nil. naive_solver.
  - cbn [foldl]. rewrite IH, fmap_cons, elem_of_cons, lookup_insert_is_Some.
    destruct (decide (ToolCall.ID tc = id)); naive_solver.
Qed.

Lemma SendFunctionResult_filter_results_before_text expected historyMessages :
  results_before_text_after expected (SendFunctionResult_filter expected historyMessages).
Proof.
  revert expected. induction historyMessages as [|msg rest IH]; intros expected.
  { intros j text Hj. simpl in Hj. by rewrite lookup_nil in Hj. }
  destruct msg as [role content tcs tcid name].
  cbn [SendFunctionResult_filter]. unfold SendFunctionResult_apiMsg. cbn [Message.Role
    Message.Content Message.ToolCalls Message.ToolCallID].
  destruct (String.eqb_spec role openai.ChatMessageRoleAssistant) as [->|Hassistant].
  - change (openai.ChatMessageRoleAssistant =? openai.ChatMessageRoleTool)%string with false.
    destruct tcs as [|tc tcs].
    + (* an assistant text entry *)
      destruct (0 <? size expected) eqn:Hsize; simpl.
      * apply IH.
      * apply Nat.ltb_ge in Hsize.
        assert (expected = ∅) as -> by (apply map_size_empty_iff; lia).
        eapply results_before_text_after_cons; [apply IH|done|auto|].
        intros [_ Hcalls]. by destruct Hcalls.
    + (* an assistant entry that issues calls *)
      cbn [length Nat.ltb Nat.leb andb negb].
      eapply results_before_text_after_cons; [apply IH|..].
      * intros [_ Hnil]. discriminate Hnil.
      * intros id Hid. left. apply (expected_after_calls expected (tc :: tcs)). by left.
      * intros _ tc' Htc'. cbn [openai.ChatCompletionMessage.ToolCalls] in Htc'.
        apply (list_elem_of_fmap_2 openai.ToolCall.ID) in Htc'.
        rewrite <- list_fmap_compose in Htc'.
        apply (expected_after_calls expected (tc :: tcs)). by right.
  - cbn [andb negb].
    destruct (String.eqb_spec role openai.ChatMessageRoleTool) as [->|Htool].
    + (* a tool result *)
      eapply results_before_text_after_cons; [apply IH|..].
      * intros [Hrole _]. discriminate Hrole.
      * intros id Hid. destruct (decide (tcid = id)) as [->|Hne].
        -- by right.
        -- left. by rewrite lookup_delete_ne.
      * intros [Hrole _]. discriminate Hrole.
    + (* a user or system entry *)
      eapply results_before_text_after_cons; [apply IH|..].
      * by intros [Hrole _].
      * auto.
      * by intros [Hrole _].
Qed.

(** The sequence [SendFunctionResult] sends has the results before the
    text, for every history. *)
Lemma SendFunctionResult_openAIMessages_results_before_text historyMessages :
  results_before_text (SendFunctionResult_openAIMessages historyMessages).
Proof.
  intros i j call text tc Hi Hcall Hj Htext Hij Htc.
  destruct (SendFunctionResult_filter_results_before_text ∅ historyMessages j text Hj Htext)
    as [_ Hissued].
  by eapply Hissued.
Qed.

(** ** The loop of [SendFunctionResult] *)

Ltac open_followup received :=
  unfold SendFunctionResult_recv, text_of, tool_calls_of, finish_marker,
    carries_tool_calls, first_choice in *;
  destruct received as [?since [choices]]; simpl in *;
  destruct choices as [|[[?role ?content ?toolCalls] ?reason] ?]; simpl in *.

Section followup.
Context (handler : ResponseHandler) (pending : gmap string bool).

(** Every response with text adds one "message" item, which carries the
    text so far, in tool-call mode or not. *)
Lemma followup_recv_text received st :
  Followup.currentContent (SendFunctionResult_recv handler pending received st)
  = Followup.currentContent st +:+ text_of received
  ∧ message_contents (Followup.calls (SendFunctionResult_recv handler pending received st))
    = message_contents (Followup.calls st)
      ++ cumulative (Followup.currentContent st) (filter (λ s, s ≠ "") [text_of received]).
Proof.
  open_followup received.
  { by rewrite append_empty_r, app_nil_r. }
  unfold SendFunctionResult_choice. simpl.
  rewrite filter_cons, filter_nil.
  destruct (nonempty content) eqn:Hc.
  - apply nonempty_true in Hc. rewrite decide_True by done.
    destruct (default [] toolCalls) as [|c cs]; destruct (Followup.currentFunctionCall st);
      destruct (reason =? "tool_calls")%string; simpl;
      rewrite ?message_contents_app; simpl; by rewrite ?app_nil_r.
  - apply nonempty_false in Hc as ->. rewrite decide_False by naive_solver.
    rewrite append_empty_r.
    destruct (default [] toolCalls) as [|c cs]; destruct (Followup.currentFunctionCall st);
      destruct (reason =? "tool_calls")%string; simpl;
      rewrite ?message_contents_app; simpl; by rewrite ?app_nil_r.
Qed.

Lemma followup_loop_text rs st :
  message_contents (Followup.calls (SendFunctionResult_loop handler pending rs st))
  = message_contents (Followup.calls st)
    ++ cumulative (Followup.currentContent st) (text_fragments rs).
Proof.
  unfold SendFunctionResult_loop. revert st.
  induction rs as [|r rs IH]; intros st.
  - simpl. by rewrite app_nil_r.
  - cbn [foldl]. rewrite IH.
    destruct (followup_recv_text r st) as [-> ->].
    rewrite text_fragments_cons, cumulative_app, <- app_assoc. do 3 f_equal.
    rewrite concatenation_filter. unfold concatenation. simpl. by rewrite append_empty_r.
Qed.

(** After a response with the "tool_calls" marker no call is under
    construction: either there was none, or it was delivered and reset. *)
Lemma followup_recv_marker received st :
  finish_marker received = "tool_calls" →
  Followup.currentFunctionCall (SendFunctionResult_recv handler pending received st) = None.
Proof.
  intros Hmarker. open_followup received; [discriminate|].
  unfold SendFunctionResult_choice. simpl. subst reason. simpl.
  by destruct (default [] toolCalls) as [|c cs]; destruct (Followup.currentFunctionCall st).
Qed.

Lemma followup_loop_snoc rs received st :
  SendFunctionResult_loop handler pending (rs ++ [received]) st
  = SendFunctionResult_recv handler pending received
      (SendFunctionResult_loop handler pending rs st).
Proof. unfold SendFunctionResult_loop. by rewrite foldl_app. Qed.

End followup.

(** Whenever the follow-up stream ends with the "tool_calls" marker, so that
    the turn ends in a request for tool calls, [SendFunctionResult] still
    calls the handler with the "followup_complete" item. *)
Lemma SendFunctionResult_completes_after_marker
    env a h handler callID functionName output success responses fin :
  OpenAIAgent.history a = Some h →
  OpenAIAgent.currentHandler a = Some handler →
  Env.CreateChatCompletionStream env
    (SendFunctionResult_request env h callID functionName output success)
  = Created (Stream.mk (responses ++ [fin]) EOF) →
  finish_marker fin = "tool_calls" →
  last (Delivery.item <$> Run.calls (SendFunctionResult env a callID functionName output success))
  = Some followup_complete_item.
Proof.
  intros Hh Hhandler Hclient Hmarker.
  unfold SendFunctionResult. rewrite Hh, Hhandler, Hclient. simpl.
  rewrite followup_loop_snoc, followup_recv_marker by done.
  rewrite fmap_app. apply last_snoc.
Qed.

(** ** The text of a turn *)

Lemma message_contents_function_calls (added : list Delivery.t) :
  Forall (λ d, ResponseItem.Type_ (Delivery.item d) = "function_call") added →
  message_contents added = [].
Proof.
  unfold message_contents. induction 1 as [|d added Hd _ IH]; [done|].
  cbn [omap list_omap]. by rewrite Hd, IH.
Qed.

(** A response never takes back a "message" item. *)
Lemma recv_message_contents_grow ord handler n received st :
  ∃ more,
    message_contents (Turn.calls (SendMessage_recv ord handler n received st))
    = message_contents (Turn.calls st) ++ more.
Proof.
  destruct (Turn.processingToolCall (SendMessage_recv ord handler n received st)) eqn:Hp.
  - destruct (recv_locked ord handler n received st Hp) as (_ & added & -> & Hadded).
    exists []. rewrite message_contents_app.
    by rewrite (message_contents_function_calls added Hadded).
  - destruct (recv_text ord handler n received st Hp) as [_ ->]. by eexists.
Qed.

Lemma loop_message_contents_grow ord handler n rs st :
  ∃ more,
    message_contents (Turn.calls (SendMessage_loop ord handler n rs st))
    = message_contents (Turn.calls st) ++ more.
Proof.
  revert n st. induction rs as [|r rs IH]; intros n st; simpl.
  - exists []. by rewrite app_nil_r.
  - destruct (IH (S n) (SendMessage_recv ord handler n r st)) as [more2 ->].
    destruct (recv_message_contents_grow ord handler n r st) as [more1 ->].
    exists (more1 ++ more2). by rewrite app_assoc.
Qed.

(** The "message" items of a stream that starts with the responses
    [before], none of which carries tool-call data: those of [before] carry
    the cumulative text; if [before] ends the stream or is followed by a
    response with tool-call data, there is no other "message" item. *)
Lemma loop_text_prefix ord handler before after :
  Forall (λ received, ¬ carries_tool_calls received) before →
  ∃ more,
    message_contents
      (Turn.calls (SendMessage_loop ord handler 0 (before ++ after) (Turn_start ∅)))
    = cumulative "" (text_fragments before) ++ more
    ∧ ((∀ next, head after = Some next → carries_tool_calls next) → more = []).
Proof.
  intros Hbefore. rewrite loop_app.
  destruct (loop_text ord handler 0 before (Turn_start ∅) Hbefore eq_refl)
    as (Hp & _ & Hcalls).
  simpl in Hcalls.
  set (st := SendMessage_loop ord handler 0 before (Turn_start ∅)) in *.
  destruct (loop_message_contents_grow ord handler (0 + length before) after st)
    as [more Hmore].
  exists more. rewrite Hmore, Hcalls. split; [done|].
  intros Hnext. rewrite Hcalls in Hmore.
  apply (app_inv_head (cumulative "" (text_fragments before))).
  rewrite <- Hmore, app_nil_r, <- Hcalls.
  destruct after as [|next after]; [done|]. cbn [SendMessage_loop].
  pose proof (recv_processing_carries ord handler (0 + length before) next st
                (Hnext next eq_refl)) as Hlocked.
  destruct (recv_locked _ _ _ _ _ Hlocked) as (_ & added1 & Hcalls1 & Hadded1).
  destruct (loop_locked ord handler (S (0 + length before)) after _ Hlocked)
    as (_ & _ & added2 & Hcalls2 & Hadded2).
  rewrite Hcalls2, Hcalls1, !message_contents_app.
  rewrite (message_contents_function_calls added1 Hadded1).
  rewrite (message_contents_function_calls added2 Hadded2).
  by rewrite !app_nil_r.
Qed.

(** C5. Let a stream start with the responses [before], none of which
    carries tool-call data, and let f1..fn be their text fragments. The
    first n "message" items that are delivered are those of f1..fn, and the
    k-th carries f1 + ... + fk, for every k from 1 to n; in the turn that
    [SendMessage] drives and in the follow-up turn that [SendFunctionResult]
    drives, whatever follows [before] in the stream and however the stream
    ends. Where [before] is all the stream up to its first response with
    tool-call data, [SendMessage] delivers no other "message" item; where
    [before] is all the stream, neither does [SendFunctionResult]. *)
Theorem message_items_carry_cumulative_text env a h before after ending :
  OpenAIAgent.history a = Some h →
  Forall (λ received, ¬ carries_tool_calls received) before →
  (∀ messages handler,
     Env.CreateChatCompletionStream env
       (SendMessage_request env (OpenAIAgent.pendingToolCalls a) h messages)
     = Created (Stream.mk (before ++ after) ending) →
     ∃ r first more,
       SendMessage env a messages handler = Some r
       ∧ message_contents (Run.calls r) = first ++ more
       ∧ cumulative_contents (text_fragments before) first
       ∧ ((∀ next, head after = Some next → carries_tool_calls next) → more = []))
  ∧ (∀ handler callID functionName output success,
       OpenAIAgent.currentHandler a = Some handler →
       Env.CreateChatCompletionStream env
         (SendFunctionResult_request env h callID functionName output success)
       = Created (Stream.mk (before ++ after) ending) →
       ∃ first more,
         message_contents
           (Run.calls (SendFunctionResult env a callID functionName output success))
         = first ++ more
         ∧ cumulative_contents (text_fragments before) first
         ∧ (after = [] → more = [])).
Proof.
  intros Hh Hbefore. split.
  - intros messages handler Hclient.
    destruct (loop_text_prefix (Env.order env) handler before after Hbefore)
      as (more & Hcalls & Hmore).
    exists (SendMessage_on env a h messages handler),
      (cumulative "" (text_fragments before)), more.
    split; [exact (SendMessage_returns _ _ _ _ _ Hh)|].
    split; [|split; [apply cumulative_is_cumulative|done]].
    unfold SendMessage_on. rewrite ?Hclient, ?SendMessage_reconcile_eq. simpl.
    by destruct ending.
  - intros handler callID functionName output success Hhandler Hclient.
    exists (cumulative "" (text_fragments before)),
      (cumulative (concatenation (text_fragments before)) (text_fragments after)).
    split; [|split; [apply cumulative_is_cumulative|by intros ->]].
    unfold SendFunctionResult. rewrite Hh, Hhandler, Hclient. simpl.
    pose proof (followup_loop_text handler
                  (delete callID (OpenAIAgent.pendingToolCalls a)) (before ++ after)
                  (Followup.mk "" None ""
                     (AddMessage h (toolResultMessage callID functionName output success)) []))
      as Hcalls.
    simpl in Hcalls.
    unfold text_fragments in Hcalls at 1. rewrite fmap_app, filter_app in Hcalls.
    fold (text_fragments before) (text_fragments after) in Hcalls.
    rewrite cumulative_app, append_nil_l in Hcalls.
    destruct ending; simpl.
    + destruct (Followup.currentFunctionCall _);
        rewrite ?message_contents_app, Hcalls; simpl; by rewrite ?app_nil_r.
    + by rewrite Hcalls.
Qed.

Lemma message_items_carry_cumulative_text_witness :
  let stream := Stream.mk [text_delta 1 "Hel"; text_delta 2 "lo"; call_delta 3 "c1" "shell" "{}";
                           text_delta 4 "!"; finish 5 "tool_calls"] EOF in
  let env := answering in_key_order (Created stream) in
  message_contents (Run.calls (SendMessage_on env new_agent [] [] 1)) = ["Hel"; "Hello"]
  ∧ message_contents
      (Run.calls (SendFunctionResult env (Run.agent after_turn1) "c1" "shell" "ok" true))
    = ["Hel"; "Hello"; "Hello!"]
  ∧ (∃ r first more,
       SendMessage env new_agent [] 1 = Some r
       ∧ message_contents (Run.calls r) = first ++ more
       ∧ cumulative_contents ["Hel"; "lo"] first
       ∧ ((∀ next, head (drop 2 (Stream.responses stream)) = Some next
                   → carries_tool_calls next) → more = []))
  ∧ (∃ first more,
       message_contents
         (Run.calls (SendFunctionResult env (Run.agent after_turn1) "c1" "shell" "ok" true))
       = first ++ more
       ∧ cumulative_contents ["Hel"; "lo"] first
       ∧ (drop 2 (Stream.responses stream) = [] → more = [])).
Proof.
  intros stream env. split; [by vm_compute|]. split; [by vm_compute|].
  destruct (message_items_carry_cumulative_text env new_agent []
              (take 2 (Stream.responses stream)) (drop 2 (Stream.responses stream)) EOF eq_refl
              ltac:(repeat constructor; by vm_compute)) as [Hsend _].
  destruct (message_items_carry_cumulative_text env (Run.agent after_turn1)
              (default [] (OpenAIAgent.history (Run.agent after_turn1)))
              (take 2 (Stream.responses stream)) (drop 2 (Stream.responses stream)) EOF eq_refl
              ltac:(repeat constructor; by vm_compute)) as [_ Hresult].
  split.
  - exact (Hsend [] 1 eq_refl).
  - exact (Hresult 1 "c1" "shell" "ok" true eq_refl eq_refl).
Defined.

(** ** Pending calls and the handler *)

(** In a turn that [SendMessage] drives, every "function_call" item reaches
    the handler with its id already in the pending map. *)
Lemma SendMessage_pending_at_delivery env a h messages handler :
  OpenAIAgent.history a = Some h →
  ∃ r, SendMessage env a messages handler = Some r
       ∧ Forall pending_at_delivery (Run.calls r).
Proof.
  intros Hh. run_SendMessage Hh Hh.
  destruct (Env.CreateChatCompletionStream env _) as [err|[rs [|err]]]; simpl;
    [done|by apply loop_pending_at_delivery..].
Qed.

(** C4, on the session: the follow-up turn that [SendFunctionResult] drives
    for the result of c1 ends with a request for the call c2. The
    "function_call" item for c2 is delivered while c2 is not in the pending
    map, and c2 is not in the map when the call returns. *)
Theorem SendFunctionResult_delivers_unregistered_call :
  ∃ d,
    Run.calls after_turn2 !! 2 = Some d
    ∧ ResponseItem.Type_ (Delivery.item d) = "function_call"
    ∧ FunctionCall.ID <$> ResponseItem.FunctionCall (Delivery.item d) = Some "c2"
    ∧ Delivery.pendingThen d !! "c2" = None
    ∧ ¬ pending_at_delivery d
    ∧ OpenAIAgent.pendingToolCalls (Run.agent after_turn2) !! "c2" = None.
Proof.
  eexists. split; [by vm_compute|]. split_and!; try by vm_compute.
  intros Hpending. specialize (Hpending _ eq_refl eq_refl). by vm_compute in Hpending.
Qed.

(** C8, on the session: the same follow-up turn ends in a request for the
    call c2, and the handler receives "followup_complete" all the same,
    right after the "function_call" item. *)
Theorem SendFunctionResult_completes_after_tool_call :
  finish_marker <$> Stream.responses turn2_stream = [""; ""; ""; "tool_calls"]
  ∧ (λ d, ResponseItem.Type_ (Delivery.item d)) <$> Run.calls after_turn2
    = ["message"; "message"; "function_call"; "followup_complete"]
  ∧ function_call_ids (Run.calls after_turn2) = ["c2"]
  ∧ length (followup_completes (Run.calls after_turn2)) = 1.
Proof. split_and!; by vm_compute. Qed.

(** C1, on the session: after the three calls the history holds the text
    that the second turn said between the entry that issues c2 and the
    result of c2. The request that [SendMessage] builds for the next user
    message keeps that text where it is, while the filter of
    [SendFunctionResult] drops it from the same history. *)
Theorem SendMessage_request_keeps_interleaved_text :
  let a := Run.agent after_turn3 in
  let env := answering in_key_order (Created turn3_stream) in
  let out := SendMessage_request env (OpenAIAgent.pendingToolCalls a) session_log
               [user_message "next"] in
  OpenAIAgent.history a = Some session_log
  ∧ Message.Role <$> session_log
    = ["user"; "assistant"; "tool"; "assistant"; "assistant"; "tool"; "assistant"]
  ∧ (∃ call text result,
       out !! 3 = Some call ∧ issues_calls call
       ∧ openai.ToolCall.ID <$> openai.ChatCompletionMessage.ToolCalls call = ["c2"]
       ∧ out !! 4 = Some text ∧ assistant_text text
       ∧ openai.ChatCompletionMessage.Content text = "Let me check."
       ∧ out !! 5 = Some result ∧ result_for "c2" result)
  ∧ ¬ results_before_text out
  ∧ results_before_text
      (SendFunctionResult_openAIMessages (session_log ++ [user_message "next"])).
Proof.
  intros a env out. split_and!.
  - by vm_compute.
  - by vm_compute.
  - do 3 eexists. split; [by vm_compute|]. split; [by vm_compute|].
    split; [by vm_compute|]. split; [by vm_compute|]. split; [by vm_compute|].
    split; [by vm_compute|]. split; by vm_compute.
  - intros Hout.
    assert (Hcall : ∃ call tc, out !! 3 = Some call ∧ issues_calls call
                               ∧ tc ∈ openai.ChatCompletionMessage.ToolCalls call).
    { do 2 eexists. split; [by vm_compute|]. split; [by vm_compute|]. left. }
    assert (Htext : ∃ text, out !! 4 = Some text ∧ assistant_text text).
    { eexists. split; by vm_compute. }
    destruct Hcall as (call & tc & Hcall & Hissues & Htc).
    destruct Htext as (text & Htext & Hassistant).
    destruct (Hout 3 4 call text tc Hcall Hissues Htext Hassistant ltac:(lia) Htc)
      as (k & _ & Hk & _). lia.
  - apply SendFunctionResult_openAIMessages_results_before_text.
Qed.

(** ** [AddSystemMessage] *)

(** C10. For an agent with a history: when the content contains the
    substring "DEBUG:", [AddSystemMessage] leaves the agent, and so the
    history, as it is and returns nil; for every other content it appends a
    system-role entry with exactly that content to the history, changes
    nothing else and returns nil. *)
Theorem AddSystemMessage_skips_debug_content a h content :
  OpenAIAgent.history a = Some h →
  (substring_of "DEBUG:" content → AddSystemMessage a content = (a, None))
  ∧ (¬ substring_of "DEBUG:" content →
     AddSystemMessage a content
     = (OpenAIAgent.mk (OpenAIAgent.cancelFunc a)
          (Some (h ++ [Message.mk "system" content [] "" ""]))
          (OpenAIAgent.currentHandler a) (OpenAIAgent.pendingToolCalls a),
        None)).
Proof.
  intros Hh. unfold AddSystemMessage. split.
  - intros Hsub. apply Contains_true_iff in Hsub. by rewrite Hsub.
  - intros Hsub. destruct (Contains content "DEBUG:") eqn:Hc.
    + by apply Contains_true_iff in Hc.
    + by rewrite Hh.
Qed.

Lemma AddSystemMessage_skips_debug_content_witness :
  AddSystemMessage new_agent "[DEBUG: stream opened]" = (new_agent, None)
  ∧ AddSystemMessage new_agent "You are a coding agent."
    = (OpenAIAgent.mk false (Some [Message.mk "system" "You are a coding agent." [] "" ""])
         None ∅, None).
Proof.
  split.
  - apply (AddSystemMessage_skips_debug_content new_agent [] "[DEBUG: stream opened]" eq_refl).
    exists "[", " stream opened]". reflexivity.
  - apply (AddSystemMessage_skips_debug_content new_agent [] "You are a coding agent." eq_refl).
    intros Hsub. apply Contains_true_iff in Hsub. discriminate Hsub.
Defined.

(** * Further properties *)

(** ** The calls that [SendMessage] assembles *)

Lemma accumulate_lookup acc c id :
  accumulate acc c !! id
  = if decide (openai.ToolCall.ID c = id ∧ id ≠ "")
    then extended (acc !! id) [c]
    else acc !! id.
Proof.
  unfold accumulate, extended, chunk_arguments, concatenation. simpl.
  destruct (String.eqb_spec (openai.ToolCall.ID c) "") as [Hempty|Hid].
  { rewrite decide_False; [done|]. intros [<- ?]. done. }
  destruct (decide (openai.ToolCall.ID c = id)) as [<-|Hne].
  - rewrite decide_True by done. rewrite append_empty_r.
    destruct (acc !! openai.ToolCall.ID c) as [[name args]|] eqn:Hacc;
      destruct (nonempty _) eqn:Hargs; simpl.
    + by rewrite lookup_alter_eq, Hacc.
    + apply nonempty_false in Hargs. by rewrite Hacc, Hargs, append_empty_r.
    + by rewrite lookup_alter_eq, lookup_insert_eq.
    + apply nonempty_false in Hargs. by rewrite lookup_insert_eq, Hargs.
  - rewrite decide_False by naive_solver.
    destruct (acc !! openai.ToolCall.ID c) eqn:Hacc; destruct (nonempty _);
      by rewrite ?lookup_alter_ne, ?lookup_insert_ne.
Qed.

Lemma accumulate_all_lookup acc chunks id :
  foldl accumulate acc chunks !! id
  = if decide (id = "") then acc !! id else extended (acc !! id) (chunks_for id chunks).
Proof.
  revert acc. induction chunks as [|c chunks IH]; intros acc.
  - simpl. case_decide; [done|]. unfold extended, chunk_arguments, concatenation. simpl.
    destruct (acc !! id) as [[name args]|]; [|done]. by rewrite append_empty_r.
  - cbn [foldl]. rewrite IH, accumulate_lookup. unfold chunks_for. rewrite filter_cons.
    destruct (decide (id = "")) as [->|Hid].
    + rewrite decide_False; [done|]. naive_solver.
    + destruct (decide (openai.ToolCall.ID c = id)) as [Hc|Hc].
      * rewrite decide_True by done.
        unfold extended, chunk_arguments, concatenation. simpl.
        destruct (acc !! id) as [[name args]|]; simpl;
          rewrite !append_empty_r, ?append_assoc; reflexivity.
      * rewrite decide_False by naive_solver. done.
Qed.

Lemma recv_accumulating ord handler n received st :
  Turn.accumulatingToolCalls (SendMessage_recv ord handler n received st)
  = foldl accumulate (Turn.accumulatingToolCalls st) (tool_calls_of received).
Proof.
  open_response received; [done|].
  destruct toolCalls as [chunks|]; simpl; [|done].
  destruct (Turn.processingToolCall st); simpl; [done|].
  by destruct chunks.
Qed.

Lemma loop_accumulating ord handler n rs st :
  Turn.accumulatingToolCalls (SendMessage_loop ord handler n rs st)
  = foldl accumulate (Turn.accumulatingToolCalls st) (chunks_of rs).
Proof.
  revert n st. induction rs as [|r rs IH]; intros n st; [done|].
  cbn [SendMessage_loop]. rewrite IH, recv_accumulating.
  unfold chunks_of. by rewrite bind_cons, foldl_app.
Qed.

(** What the loop holds for an id is what the chunks of that id spell. *)
Lemma loop_assembled ord handler rs pending id :
  Turn.accumulatingToolCalls (SendMessage_loop ord handler 0 rs (Turn_start pending)) !! id
  = assembled (chunks_of rs) id.
Proof.
  rewrite loop_accumulating, accumulate_all_lookup. simpl. rewrite lookup_empty.
  unfold assembled. destruct (String.eqb_spec id "") as [->|Hid].
  - by rewrite decide_True.
  - rewrite decide_False by done. unfold extended. by destruct (chunks_for id _).
Qed.

Lemma go_range_lookup {V} (ord : RangeOrder) (site : RangeSite) (m : gmap string V) entry :
  entry ∈ go_range ord site m → m !! entry.1 = Some entry.2.
Proof.
  unfold go_range. rewrite list_elem_of_omap. intros (k & _ & Hk).
  destruct (m !! k) eqn:Hm; simplify_eq/=. done.
Qed.

Lemma function_calls_app (xs ys : list Delivery.t) :
  function_calls (xs ++ ys) = function_calls xs ++ function_calls ys.
Proof. apply omap_app. Qed.

Lemma emit_function_calls handler since entries pending calls :
  function_calls (foldl (SendMessage_emit handler since) (pending, calls) entries).2
  = function_calls calls
    ++ ((λ entry : string * openai.FunctionCall.t,
           FunctionCall.mk (openai.FunctionCall.Name entry.2)
             (openai.FunctionCall.Arguments entry.2) entry.1) <$> entries).
Proof.
  revert pending calls. induction entries as [|e es IH]; intros; simpl.
  - by rewrite app_nil_r.
  - unfold SendMessage_emit at 2. simpl. rewrite IH.
    rewrite function_calls_app. simpl. by rewrite <- app_assoc.
Qed.

Lemma recv_function_calls ord handler n received st :
  function_calls (Turn.calls (SendMessage_recv ord handler n received st))
  = function_calls (Turn.calls st)
    ++ (if (finish_marker received =? "tool_calls")%string
        then (λ entry : string * openai.FunctionCall.t,
                FunctionCall.mk (openai.FunctionCall.Name entry.2)
                  (openai.FunctionCall.Arguments entry.2) entry.1)
             <$> go_range ord (AtFinish n)
                   (Turn.accumulatingToolCalls (SendMessage_recv ord handler n received st))
        else []).
Proof.
  open_response received; [by rewrite app_nil_r|].
  destruct (reason =? "tool_calls")%string; simpl.
  - rewrite emit_function_calls. f_equal.
    destruct (nonempty content && _); [|done].
    rewrite function_calls_app. apply app_nil_r.
  - rewrite app_nil_r. destruct (nonempty content && _); [|done].
    rewrite function_calls_app. apply app_nil_r.
Qed.

Lemma loop_function_calls_unfinished ord handler n rs st :
  Forall (λ received, finish_marker received ≠ "tool_calls") rs →
  function_calls (Turn.calls (SendMessage_loop ord handler n rs st))
  = function_calls (Turn.calls st).
Proof.
  revert n st. induction rs as [|r rs IH]; intros n st Hrs; simpl; [done|].
  apply Forall_cons in Hrs as [Hr Hrs]. rewrite IH by done.
  rewrite recv_function_calls.
  apply String.eqb_neq in Hr. rewrite Hr. apply app_nil_r.
Qed.

(** X2. When the stream ends with the "tool_calls" marker, every
    "function_call" item that [SendMessage] delivers carries, for its id, the
    function name given by the first chunk of that id and, as arguments, the
    argument chunks of that id one after the other in the order of the
    stream; chunks without an id contribute to no call. *)
Theorem SendMessage_function_calls_carry_assembled_calls
    env a h messages handler pre fin ending :
  OpenAIAgent.history a = Some h →
  Env.CreateChatCompletionStream env
    (SendMessage_request env (OpenAIAgent.pendingToolCalls a) h messages)
  = Created (Stream.mk (pre ++ [fin]) ending) →
  finish_marker fin = "tool_calls" →
  Forall (λ received, finish_marker received ≠ "tool_calls") pre →
  ∃ r,
    SendMessage env a messages handler = Some r
    ∧ Forall (λ fc, assembled (chunks_of (pre ++ [fin])) (FunctionCall.ID fc)
                    = Some (openai.FunctionCall.mk (FunctionCall.Name fc)
                              (FunctionCall.Arguments fc)))
        (function_calls (Run.calls r)).
Proof.
  intros Hh Hclient Hfin Hpre.
  assert (Hloop :
    Forall (λ fc, assembled (chunks_of (pre ++ [fin])) (FunctionCall.ID fc)
                  = Some (openai.FunctionCall.mk (FunctionCall.Name fc)
                            (FunctionCall.Arguments fc)))
      (function_calls
         (Turn.calls (SendMessage_loop (Env.order env) handler 0 (pre ++ [fin])
                        (Turn_start ∅))))).
  { pose proof (loop_assembled (Env.order env) handler (pre ++ [fin]) ∅) as Hacc.
    revert Hacc. rewrite loop_app. simpl. intros Hacc.
    rewrite recv_function_calls, loop_function_calls_unfinished by done.
    rewrite Hfin. simpl. apply Forall_fmap, Forall_forall. intros [id [name args]] Hentry.
    apply go_range_lookup in Hentry. simpl in *. by rewrite <- Hacc, Hentry. }
  run_SendMessage Hh Hclient. by destruct ending.
Qed.

Lemma SendMessage_function_calls_carry_assembled_calls_witness :
  let stream :=
    Stream.mk [call_delta 1 "c1" "shell" "{"; call_delta 2 "" "" "dropped";
               call_delta 3 "c1" "ignored" "}"; finish 4 "tool_calls"] EOF in
  let env := answering in_key_order (Created stream) in
  ∃ r,
    SendMessage env new_agent [] 1 = Some r
    ∧ function_calls (Run.calls r) = [FunctionCall.mk "shell" "{}" "c1"]
    ∧ Forall (λ fc, assembled (chunks_of (Stream.responses stream)) (FunctionCall.ID fc)
                    = Some (openai.FunctionCall.mk (FunctionCall.Name fc)
                              (FunctionCall.Arguments fc)))
        (function_calls (Run.calls r)).
Proof.
  intros stream env.
  destruct (SendMessage_function_calls_carry_assembled_calls env new_agent [] [] 1
              [call_delta 1 "c1" "shell" "{"; call_delta 2 "" "" "dropped";
               call_delta 3 "c1" "ignored" "}"] (finish 4 "tool_calls") EOF
              eq_refl eq_refl eq_refl ltac:(by repeat constructor)) as (r & Hrun & Hcalls).
  exists r. split; [exact Hrun|]. split; [|exact Hcalls].
  injection Hrun as <-. by vm_compute.
Defined.

(** ** What [SendMessage] commits *)

Lemma call_ids_carried rs :
  call_ids rs ≠ [] → Exists carries_tool_calls rs.
Proof.
  induction rs as [|r rs IH]; [done|].
  rewrite call_ids_cons. intros Hids.
  destruct (tool_calls_of r) as [|c cs] eqn:Hr.
  - right. apply IH. by rewrite fmap_nil, filter_nil in Hids.
  - left. unfold carries_tool_calls. by rewrite Hr.
Qed.

(** X3. When the stream of a turn has delivered at least one tool-call chunk
    with an id and ends with EOF, with or without the "tool_calls" marker,
    [SendMessage] returns true and commits exactly one entry: an assistant
    entry with empty content and one tool call of type "function" for each
    accumulated id, which has the assembled name and the assembled
    arguments, "{}" standing for empty arguments. Text that was delivered
    before is not committed. *)
Theorem SendMessage_commits_the_tool_calls env a h messages handler responses :
  range_permutes (Env.order env) →
  OpenAIAgent.history a = Some h →
  Env.CreateChatCompletionStream env
    (SendMessage_request env (OpenAIAgent.pendingToolCalls a) h messages)
  = Created (Stream.mk responses EOF) →
  call_ids responses ≠ [] →
  ∃ r toolCalls,
    SendMessage env a messages handler = Some r
    ∧ Run.ret r = (true, None)
    ∧ OpenAIAgent.history (Run.agent r)
      = Some ((SendMessage_reconcile (Env.order env) (OpenAIAgent.pendingToolCalls a)
                 h messages).1
              ++ [Message.mk openai.ChatMessageRoleAssistant "" toolCalls "" ""])
    ∧ ToolCall.ID <$> toolCalls ≡ₚ first_seen responses
    ∧ Forall (λ tc, ∃ call, assembled (chunks_of responses) (ToolCall.ID tc) = Some call
                            ∧ tc = committed_call (ToolCall.ID tc) call) toolCalls.
Proof.
  intros Hord Hh Hclient Hids.
  set (st := SendMessage_loop (Env.order env) handler 0 responses (Turn_start ∅)).
  set (entries := go_range (Env.order env) AtCommit (Turn.accumulatingToolCalls st)).
  assert (Hended : Turn.streamEndedWithToolCall st = true).
  { apply loop_ended_by. eapply Exists_impl; [by apply call_ids_carried|]. auto. }
  assert (Hkeys : entries.*1 ≡ₚ first_seen responses).
  { unfold entries. rewrite go_range_keys_perm by done. unfold st.
    rewrite loop_accumulating_dom. simpl. rewrite dom_empty_L, (left_id_L ∅ (∪)).
    apply first_occurrences_elements. }
  assert (Hentries : entries ≠ []).
  { intros Hnil. rewrite Hnil in Hkeys. simpl in Hkeys.
    apply Permutation_nil_l in Hkeys. unfold first_seen in Hkeys.
    destruct (call_ids responses); [done|discriminate]. }
  exists (SendMessage_on env a h messages handler),
    ((λ entry : string * openai.FunctionCall.t, committed_call entry.1 entry.2) <$> entries).
  split; [exact (SendMessage_returns _ _ _ _ _ Hh)|].
  unfold SendMessage_on. rewrite ?Hclient, ?SendMessage_reconcile_eq. simpl.
  fold st. rewrite Hended.
  split_and!.
  - done.
  - unfold SendMessage_commit. rewrite Hended. fold entries. unfold AddMessage.
    destruct entries; [done|]. reflexivity.
  - rewrite <- list_fmap_compose. exact Hkeys.
  - apply Forall_fmap, Forall_forall. intros [id call] Hentry.
    apply go_range_lookup in Hentry. simpl in *. exists call. split; [|done].
    unfold st in Hentry. by rewrite loop_assembled in Hentry.
Qed.

Lemma SendMessage_commits_the_tool_calls_witness :
  let stream :=
    Stream.mk [text_delta 1 "I will look."; call_delta 2 "c1" "shell" "";
               call_delta 3 "c2" "read_file" "{}"] EOF in
  let env := answering in_reverse_key_order (Created stream) in
  ∃ r,
    SendMessage env new_agent [user_message "go"] 1 = Some r
    ∧ Run.ret r = (true, None)
    ∧ OpenAIAgent.history (Run.agent r)
      = Some [user_message "go";
              Message.mk openai.ChatMessageRoleAssistant ""
                [ToolCall.mk "c2" "function" (FunctionCall.mk "read_file" "{}" "");
                 ToolCall.mk "c1" "function" (FunctionCall.mk "shell" "{}" "")] "" ""].
Proof.
  intros stream env.
  destruct (SendMessage_commits_the_tool_calls env new_agent [] [user_message "go"] 1
              (Stream.responses stream) in_reverse_key_order_permutes eq_refl eq_refl
              ltac:(by vm_compute)) as (r & toolCalls & Hrun & Hret & _).
  exists r. split; [exact Hrun|]. split; [exact Hret|].
  injection Hrun as <-. by vm_compute.
Defined.

Lemma loop_no_ids ord handler n rs st :
  call_ids rs = [] →
  Turn.accumulatingToolCalls st = ∅ →
  Turn.accumulatingToolCalls (SendMessage_loop ord handler n rs st) = ∅
  ∧ function_call_ids (Turn.calls (SendMessage_loop ord handler n rs st))
    = function_call_ids (Turn.calls st).
Proof.
  revert n st. induction rs as [|r rs IH]; intros n st Hids Hst; [done|].
  rewrite call_ids_cons in Hids. apply app_eq_nil in Hids as [Hr Hrs].
  assert (Hacc : Turn.accumulatingToolCalls (SendMessage_recv ord handler n r st) = ∅).
  { apply (dom_empty_inv_L (D := gset string)).
    rewrite recv_accumulating_dom, Hr, Hst, dom_empty_L. set_solver. }
  cbn [SendMessage_loop]. destruct (IH (S n) _ Hrs Hacc) as [-> ->]. split; [done|].
  rewrite recv_function_call_ids, Hacc, go_range_empty.
  destruct (_ =? _)%string; apply app_nil_r.
Qed.

(** X4. When a stream that ends with EOF has been in tool-call mode (a
    response carried tool-call data, or the "tool_calls" marker) without
    delivering a chunk with an id, [SendMessage] returns true although it
    delivers no "function_call" item and commits nothing: neither a tool-call
    entry nor the text that was delivered. *)
Theorem SendMessage_tool_call_turn_without_ids env a h messages handler responses :
  OpenAIAgent.history a = Some h →
  Env.CreateChatCompletionStream env
    (SendMessage_request env (OpenAIAgent.pendingToolCalls a) h messages)
  = Created (Stream.mk responses EOF) →
  call_ids responses = [] →
  Exists (λ received, carries_tool_calls received ∨ finish_marker received = "tool_calls")
    responses →
  ∃ r,
    SendMessage env a messages handler = Some r
    ∧ Run.ret r = (true, None)
    ∧ function_call_ids (Run.calls r) = []
    ∧ OpenAIAgent.history (Run.agent r)
      = Some (SendMessage_reconcile (Env.order env) (OpenAIAgent.pendingToolCalls a)
                h messages).1.
Proof.
  intros Hh Hclient Hids Hmode.
  pose proof (loop_ended_by (Env.order env) handler 0 responses (Turn_start ∅) Hmode)
    as Hended.
  destruct (loop_no_ids (Env.order env) handler 0 responses (Turn_start ∅) Hids eq_refl)
    as [Hacc Hcalls].
  run_SendMessage Hh Hclient. rewrite Hended. split_and!; [done..|].
  unfold SendMessage_commit. by rewrite Hended, Hacc, go_range_empty.
Qed.

Lemma SendMessage_tool_call_turn_without_ids_witness :
  let stream := Stream.mk [text_delta 1 "Hm."; call_delta 2 "" "shell" "{}";
                           finish 3 "tool_calls"] EOF in
  let env := answering in_key_order (Created stream) in
  ∃ r,
    SendMessage env new_agent [user_message "go"] 1 = Some r
    ∧ Run.ret r = (true, None)
    ∧ function_call_ids (Run.calls r) = []
    ∧ OpenAIAgent.history (Run.agent r) = Some [user_message "go"].
Proof.
  intros stream env.
  apply (SendMessage_tool_call_turn_without_ids env new_agent [] [user_message "go"] 1
           (Stream.responses stream) eq_refl eq_refl eq_refl).
  apply Exists_cons_tl, Exists_cons_hd. left. by vm_compute.
Defined.

(** ** A turn of text *)

(** X5. When no response of a stream that ends with EOF carries tool-call
    data or the "tool_calls" marker (the turn ends with "stop", with another
    marker or with none), [SendMessage] returns false and nil, and commits
    the text of the turn, if there is some, as one entry whose content is the
    text fragments one after the other and whose role is the last role that
    the stream announced, "assistant" if it announced none. *)
Theorem SendMessage_commits_the_text env a h messages handler responses :
  OpenAIAgent.history a = Some h →
  Env.CreateChatCompletionStream env
    (SendMessage_request env (OpenAIAgent.pendingToolCalls a) h messages)
  = Created (Stream.mk responses EOF) →
  Forall (λ received, ¬ carries_tool_calls received) responses →
  Forall (λ received, finish_marker received ≠ "tool_calls") responses →
  ∃ r,
    SendMessage env a messages handler = Some r
    ∧ Run.ret r = (false, None)
    ∧ OpenAIAgent.history (Run.agent r)
      = Some ((SendMessage_reconcile (Env.order env) (OpenAIAgent.pendingToolCalls a)
                 h messages).1
              ++ if nonempty (concatenation (text_fragments responses))
                 then [Message.mk (role_after responses)
                         (concatenation (text_fragments responses)) [] "" ""]
                 else []).
Proof.
  intros Hh Hclient Hcarries Hmarker.
  pose proof (loop_ended_idle (Env.order env) handler 0 responses (Turn_start ∅)
                Hcarries Hmarker eq_refl) as Hended.
  destruct (loop_text (Env.order env) handler 0 responses (Turn_start ∅) Hcarries eq_refl)
    as (_ & Hcontent & _).
  pose proof (loop_role (Env.order env) handler 0 responses (Turn_start ∅)) as Hrole.
  simpl in Hended, Hcontent, Hrole.
  run_SendMessage Hh Hclient. rewrite Hended. split; [done|].
  unfold SendMessage_commit. rewrite Hended, Hcontent, Hrole.
  unfold AddMessage, role_after. destruct (nonempty _); [done|by rewrite app_nil_r].
Qed.

Lemma SendMessage_commits_the_text_witness :
  let stream :=
    Stream.mk [(1%Z, openai.ChatCompletionStreamResponse.mk
                     [openai.Choice.mk (openai.Delta.mk "assistant" "" None) ""]);
               text_delta 2 "Hel"; text_delta 3 "lo"; finish 4 "stop"] EOF in
  let env := answering in_key_order (Created stream) in
  ∃ r,
    SendMessage env new_agent [user_message "hi"] 1 = Some r
    ∧ Run.ret r = (false, None)
    ∧ OpenAIAgent.history (Run.agent r)
      = Some [user_message "hi"; Message.mk "assistant" "Hello" [] "" ""].
Proof.
  intros stream env.
  apply (SendMessage_commits_the_text env new_agent [] [user_message "hi"] 1
           (Stream.responses stream) eq_refl eq_refl).
  - repeat constructor; by vm_compute.
  - repeat constructor; by vm_compute.
Defined.

(** ** The pending map when [SendMessage] returns *)

Lemma emit_pending_true handler since entries pending calls :
  map_Forall (λ _ b, b = true) pending →
  map_Forall (λ _ b, b = true) (foldl (SendMessage_emit handler since) (pending, calls) entries).1.
Proof.
  revert pending calls. induction entries as [|e es IH]; intros pending calls Hp; [done|].
  simpl. unfold SendMessage_emit at 2. simpl. apply IH. by apply map_Forall_insert_2.
Qed.

Lemma loop_pending_exact ord handler n rs st :
  dom (Turn.pendingToolCalls st) = list_to_set (function_call_ids (Turn.calls st)) →
  map_Forall (λ _ b, b = true) (Turn.pendingToolCalls st) →
  dom (Turn.pendingToolCalls (SendMessage_loop ord handler n rs st))
  = list_to_set (function_call_ids (Turn.calls (SendMessage_loop ord handler n rs st)))
  ∧ map_Forall (λ _ b, b = true)
      (Turn.pendingToolCalls (SendMessage_loop ord handler n rs st)).
Proof.
  revert n st. induction rs as [|r rs IH]; intros n st Hdom Htrue; simpl; [done|].
  apply IH.
  - rewrite recv_function_call_ids.
    open_response r; [by rewrite app_nil_r|].
    destruct (reason =? "tool_calls")%string; simpl.
    + rewrite emit_pending_dom, list_to_set_app_L. by rewrite Hdom.
    + by rewrite app_nil_r.
  - open_response r; [done|].
    destruct (reason =? "tool_calls")%string; simpl; [|done].
    by apply emit_pending_true.
Qed.

(** X6. Whatever the stream does (it cannot be opened, fails, or reaches
    EOF), the ids in the pending map when [SendMessage] returns are exactly
    the ids of the "function_call" items that this call delivered, each
    marked true: the ids that were pending before the call are all gone, and
    a turn that fails after its items were delivered leaves them pending. *)
Theorem SendMessage_leaves_the_announced_calls_pending env a h messages handler :
  OpenAIAgent.history a = Some h →
  ∃ r,
    SendMessage env a messages handler = Some r
    ∧ dom (OpenAIAgent.pendingToolCalls (Run.agent r))
      = list_to_set (function_call_ids (Run.calls r))
    ∧ map_Forall (λ _ b, b = true) (OpenAIAgent.pendingToolCalls (Run.agent r)).
Proof.
  intros Hh.
  assert (Hloop : ∀ rs,
    dom (Turn.pendingToolCalls (SendMessage_loop (Env.order env) handler 0 rs (Turn_start ∅)))
    = list_to_set (function_call_ids
        (Turn.calls (SendMessage_loop (Env.order env) handler 0 rs (Turn_start ∅))))
    ∧ map_Forall (λ _ b, b = true)
        (Turn.pendingToolCalls (SendMessage_loop (Env.order env) handler 0 rs (Turn_start ∅)))).
  { intros rs. apply loop_pending_exact; simpl.
    - by rewrite dom_empty_L.
    - apply map_Forall_empty. }
  run_SendMessage Hh Hh.
  destruct (Env.CreateChatCompletionStream env _) as [err|[rs [|err]]]; simpl.
  - split; [by rewrite dom_empty_L | apply map_Forall_empty].
  - apply Hloop.
  - apply Hloop.
Qed.

Lemma SendMessage_leaves_the_announced_calls_pending_witness :
  let stream := Stream.mk [call_delta 1 "c7" "shell" "{}"; finish 2 "tool_calls"]
                  (RecvError "unexpected EOF") in
  let env := answering in_key_order (Created stream) in
  let a := Run.agent after_turn1 in
  dom (OpenAIAgent.pendingToolCalls a) = {[ "c1" ]}
  ∧ ∃ r,
      SendMessage env a [] 1 = Some r
      ∧ dom (OpenAIAgent.pendingToolCalls (Run.agent r)) = {[ "c7" ]}.
Proof.
  intros stream env a. split; [by vm_compute|].
  destruct (SendMessage_leaves_the_announced_calls_pending env a
              (default [] (OpenAIAgent.history a)) [] 1 eq_refl) as (r & Hrun & Hdom & _).
  exists r. split; [exact Hrun|]. rewrite Hdom.
  injection Hrun as <-. by vm_compute.
Defined.

Lemma SendMessage_pending_at_delivery_witness :
  let env := answering in_reverse_key_order (Created two_calls_stream) in
  ∃ r,
    SendMessage env new_agent [] 1 = Some r
    ∧ function_call_ids (Run.calls r) = ["c2"; "c1"]
    ∧ Forall pending_at_delivery (Run.calls r).
Proof.
  intros env.
  destruct (SendMessage_pending_at_delivery env new_agent [] [] 1 eq_refl)
    as (r & Hrun & Hpending).
  exists r. split; [exact Hrun|]. split; [|exact Hpending].
  injection Hrun as <-. by vm_compute.
Defined.

(** ** What [SendFunctionResult] does to the agent *)


Section followup_more.
Context (handler : ResponseHandler) (pending : gmap string bool).

Lemma followup_recv_history received st :
  ∃ nested,
    Followup.history (SendFunctionResult_recv handler pending received st)
    = Followup.history st ++ nested
    ∧ Forall nested_call_entry nested
    ∧ (finish_marker received ≠ "tool_calls" → nested = []).
Proof.
  open_followup received.
  { exists []. by rewrite app_nil_r. }
  unfold SendFunctionResult_choice. simpl.
  destruct (default [] toolCalls) as [|c cs]; destruct (Followup.currentFunctionCall st);
    destruct (String.eqb_spec reason "tool_calls"); simpl;
    try (exists []; by rewrite app_nil_r);
    (eexists [_]; split; [done|]; split; [by repeat constructor|done]).
Qed.

Lemma followup_loop_history rs st :
  ∃ nested,
    Followup.history (SendFunctionResult_loop handler pending rs st)
    = Followup.history st ++ nested
    ∧ Forall nested_call_entry nested
    ∧ (Forall (λ received, finish_marker received ≠ "tool_calls") rs → nested = []).
Proof.
  unfold SendFunctionResult_loop. revert st.
  induction rs as [|r rs IH]; intros st.
  - exists []. by rewrite app_nil_r.
  - cbn [foldl].
    destruct (followup_recv_history r st) as (nested1 & Hh1 & Hn1 & Hm1).
    destruct (IH (SendFunctionResult_recv handler pending r st))
      as (nested2 & -> & Hn2 & Hm2).
    exists (nested1 ++ nested2). rewrite Hh1, <- app_assoc. split; [done|].
    split; [by apply Forall_app|].
    intros Hrs. apply Forall_cons in Hrs as [Hr Hrs]. by rewrite Hm1, Hm2.
Qed.

Lemma followup_loop_content rs st :
  Followup.currentContent (SendFunctionResult_loop handler pending rs st)
  = Followup.currentContent st +:+ concatenation (text_fragments rs).
Proof.
  unfold SendFunctionResult_loop. revert st.
  induction rs as [|r rs IH]; intros st.
  - simpl. by rewrite append_empty_r.
  - cbn [foldl]. rewrite IH.
    destruct (followup_recv_text handler pending r st) as [-> _].
    rewrite text_fragments_cons, concatenation_app, concatenation_filter.
    unfold concatenation at 2. simpl. by rewrite append_empty_r, append_assoc.
Qed.

Lemma followup_recv_to received st :
  Forall (λ d, Delivery.to d = handler) (Followup.calls st) →
  Forall (λ d, Delivery.to d = handler)
    (Followup.calls (SendFunctionResult_recv handler pending received st)).
Proof.
  intros Hst. open_followup received; [done|].
  unfold SendFunctionResult_choice. simpl.
  destruct (nonempty content); destruct (default [] toolCalls) as [|c cs];
    destruct (Followup.currentFunctionCall st);
    destruct (reason =? "tool_calls")%string; simpl;
    rewrite ?Forall_app, ?Forall_singleton; auto.
Qed.

Lemma followup_loop_to rs st :
  Forall (λ d, Delivery.to d = handler) (Followup.calls st) →
  Forall (λ d, Delivery.to d = handler)
    (Followup.calls (SendFunctionResult_loop handler pending rs st)).
Proof.
  unfold SendFunctionResult_loop. revert st.
  induction rs as [|r rs IH]; intros st Hst; [done|].
  cbn [foldl]. by apply IH, followup_recv_to.
Qed.

End followup_more.

(** Every "function_call" item that the follow-up loop delivers comes with
    the entry of its call in the history, and the loop adds nothing else to
    the history. *)
Lemma followup_recv_nested handler pending received st :
  ∃ added,
    function_calls (Followup.calls (SendFunctionResult_recv handler pending received st))
    = function_calls (Followup.calls st) ++ added
    ∧ Followup.history (SendFunctionResult_recv handler pending received st)
      = Followup.history st ++ (nested_entry_of <$> added).
Proof.
  open_followup received.
  { exists []. by rewrite !app_nil_r. }
  unfold SendFunctionResult_choice. simpl.
  destruct (nonempty content); destruct (default [] toolCalls) as [|c cs];
    destruct (Followup.currentFunctionCall st) as [[name args]|];
    destruct (reason =? "tool_calls")%string; simpl;
    rewrite ?function_calls_app; simpl; rewrite ?app_nil_r;
    try (exists []; by rewrite !app_nil_r);
    by eexists [_].
Qed.

Lemma followup_loop_nested handler pending rs st :
  ∃ added,
    function_calls (Followup.calls (SendFunctionResult_loop handler pending rs st))
    = function_calls (Followup.calls st) ++ added
    ∧ Followup.history (SendFunctionResult_loop handler pending rs st)
      = Followup.history st ++ (nested_entry_of <$> added).
Proof.
  unfold SendFunctionResult_loop. revert st.
  induction rs as [|r rs IH]; intros st.
  - exists []. by rewrite !app_nil_r.
  - cbn [foldl].
    destruct (followup_recv_nested handler pending r st) as (added1 & Hcalls1 & Hhistory1).
    destruct (IH (SendFunctionResult_recv handler pending r st))
      as (added2 & -> & ->).
    exists (added1 ++ added2). by rewrite Hcalls1, Hhistory1, fmap_app, !app_assoc.
Qed.

(** X7. For an agent with a history, whatever the client answers,
    [SendFunctionResult] removes the id of the result from the pending map
    and adds no id, leaves the handler and the cancel function as they are,
    and leaves this history: the one it found, then the tool-result entry,
    then, for every "function_call" item it delivered and in the order of
    the deliveries, one assistant entry with empty content and one tool call
    that carries the id, the name and the arguments of the item, and last,
    if a handler is set and the stream was created and reached EOF with some
    text, one assistant entry whose content is the text fragments of the
    stream one after the other. *)
Theorem SendFunctionResult_appends_to_the_history
    env a h callID functionName output success :
  OpenAIAgent.history a = Some h →
  let r := SendFunctionResult env a callID functionName output success in
  let answer :=
    Env.CreateChatCompletionStream env
      (SendFunctionResult_request env h callID functionName output success) in
  OpenAIAgent.pendingToolCalls (Run.agent r) = delete callID (OpenAIAgent.pendingToolCalls a)
  ∧ OpenAIAgent.currentHandler (Run.agent r) = OpenAIAgent.currentHandler a
  ∧ OpenAIAgent.cancelFunc (Run.agent r) = OpenAIAgent.cancelFunc a
  ∧ OpenAIAgent.history (Run.agent r)
    = Some (h ++ toolResultMessage callID functionName output success
              :: (nested_entry_of <$> function_calls (Run.calls r))
              ++ (if OpenAIAgent.currentHandler a then followup_text_entry answer else [])).
Proof.
  intros Hh r answer. unfold r, answer, SendFunctionResult. rewrite Hh.
  destruct (OpenAIAgent.currentHandler a) as [handler|] eqn:Hhandler; simpl; [|done].
  destruct (Env.CreateChatCompletionStream env _) as [err|[rs ending]]; simpl; [done|].
  set (pending := delete callID (OpenAIAgent.pendingToolCalls a)).
  set (st := Followup.mk "" None ""
               (AddMessage h (toolResultMessage callID functionName output success)) []).
  destruct (followup_loop_nested handler pending rs st) as (added & Hcalls & Hhistory).
  pose proof (followup_loop_content handler pending rs st) as Hcontent.
  simpl in Hcalls, Hhistory, Hcontent. rewrite append_nil_l in Hcontent.
  unfold AddMessage in *.
  destruct ending as [|err]; simpl.
  - split_and!; [done..|]. rewrite Hhistory, Hcontent.
    assert (Hdelivered :
      function_calls
        match Followup.currentFunctionCall (SendFunctionResult_loop handler pending rs st) with
        | Some _ => Followup.calls (SendFunctionResult_loop handler pending rs st)
        | None =>
            Followup.calls (SendFunctionResult_loop handler pending rs st)
            ++ [Delivery.mk handler followup_complete_item pending]
        end = added).
    { destruct (Followup.currentFunctionCall _); rewrite ?function_calls_app, Hcalls; [done|].
      simpl. by rewrite app_nil_r. }
    rewrite Hdelivered.
    destruct (nonempty _); by rewrite <- ?app_assoc, ?app_nil_r.
  - split_and!; [done..|]. by rewrite Hhistory, Hcalls, <- !app_assoc, app_nil_r.
Qed.

Lemma SendFunctionResult_appends_to_the_history_witness :
  let stream :=
    Stream.mk [text_delta 1 "Next: "; call_delta 2 "c2" "read_file" "{";
               call_delta 3 "" "" "}"; finish 4 "tool_calls"] EOF in
  let a := Run.agent after_turn1 in
  let r := SendFunctionResult (answering in_key_order (Created stream)) a
             "c1" "list_directory" "a.txt" true in
  OpenAIAgent.pendingToolCalls (Run.agent r) = ∅
  ∧ function_calls (Run.calls r) = [FunctionCall.mk "read_file" "{}" "c2"]
  ∧ OpenAIAgent.history (Run.agent r)
    = Some (default [] (OpenAIAgent.history a)
            ++ [toolResultMessage "c1" "list_directory" "a.txt" true;
                nested_entry_of (FunctionCall.mk "read_file" "{}" "c2");
                Message.mk "assistant" "Next: " [] "" ""]).
Proof.
  intros stream a r.
  destruct (SendFunctionResult_appends_to_the_history
              (answering in_key_order (Created stream)) a
              (default [] (OpenAIAgent.history a)) "c1" "list_directory" "a.txt" true eq_refl)
    as (Hpending & _ & _ & Hhistory).
  split; [by vm_compute|]. split; [by vm_compute|].
  etransitivity; [exact Hhistory|]. by vm_compute.
Defined.

(** X8. After [FinalizeInteraction], [SendFunctionResult] only records the
    result: it returns nil, appends the tool-result entry, removes the id
    from the pending map, opens no stream (the outcome is the same whatever
    the client would answer) and calls no handler. *)
Theorem SendFunctionResult_after_FinalizeInteraction
    env a h callID functionName output success :
  OpenAIAgent.history a = Some h →
  SendFunctionResult env (FinalizeInteraction a) callID functionName output success
  = Run.mk None
      (OpenAIAgent.mk false
         (Some (h ++ [toolResultMessage callID functionName output success]))
         None (delete callID (OpenAIAgent.pendingToolCalls a)))
      [].
Proof. intros Hh. unfold SendFunctionResult, FinalizeInteraction. simpl. by rewrite Hh. Qed.

Lemma SendFunctionResult_after_FinalizeInteraction_witness :
  let r := SendFunctionResult (answering in_key_order (Created turn2_stream))
             (FinalizeInteraction (Run.agent after_turn1))
             "c1" "list_directory" "permission denied" false in
  Run.calls r = []
  ∧ Message.Content <$> last (default [] (OpenAIAgent.history (Run.agent r)))
    = Some (mustMarshal "error" "permission denied").
Proof.
  intros r. unfold r.
  rewrite (SendFunctionResult_after_FinalizeInteraction _ (Run.agent after_turn1)
             (default [] (OpenAIAgent.history (Run.agent after_turn1)))
             "c1" "list_directory" "permission denied" false eq_refl).
  split; [done|]. by vm_compute.
Defined.

(** ** The call that the follow-up assembles *)

Section followup_call.
Context (handler : ResponseHandler) (pending : gmap string bool).

Lemma followup_extended_app o cs1 cs2 :
  followup_extended (followup_extended o cs1) cs2 = followup_extended o (cs1 ++ cs2).
Proof.
  unfold followup_extended, chunk_arguments.
  destruct o as [[call id]|]; [|destruct cs1 as [|c1 cs1]]; simpl;
    rewrite ?fmap_app, ?concatenation_app, ?append_assoc; done.
Qed.

(** Without the marker, a response adds its first chunk to the call under
    construction and commits nothing. *)
Lemma followup_recv_unfinished received st :
  finish_marker received ≠ "tool_calls" →
  under_construction (SendFunctionResult_recv handler pending received st)
  = followup_extended (under_construction st) (option_list (head (tool_calls_of received))).
Proof.
  intros Hmarker. unfold under_construction, followup_extended, chunk_arguments.
  open_followup received.
  { destruct (Followup.currentFunctionCall st) as [[name args]|]; simpl; [|done].
    unfold concatenation. simpl. by rewrite append_empty_r. }
  unfold SendFunctionResult_choice. simpl.
  apply String.eqb_neq in Hmarker.
  destruct (default [] toolCalls) as [|c cs];
    destruct (Followup.currentFunctionCall st) as [[name args]|]; rewrite ?Hmarker; simpl;
    unfold concatenation; simpl; by rewrite ?append_empty_r.
Qed.

Lemma first_chunks_cons received rs :
  first_chunks (received :: rs)
  = option_list (head (tool_calls_of received)) ++ first_chunks rs.
Proof. unfold first_chunks. simpl. by destruct (head _). Qed.

Lemma first_chunks_app rs1 rs2 :
  first_chunks (rs1 ++ rs2) = first_chunks rs1 ++ first_chunks rs2.
Proof. apply omap_app. Qed.

Lemma followup_loop_unfinished rs st :
  Forall (λ received, finish_marker received ≠ "tool_calls") rs →
  under_construction (SendFunctionResult_loop handler pending rs st)
  = followup_extended (under_construction st) (first_chunks rs).
Proof.
  unfold SendFunctionResult_loop. revert st.
  induction rs as [|r rs IH]; intros st Hrs.
  - simpl. unfold under_construction, followup_extended, chunk_arguments, concatenation.
    destruct (Followup.currentFunctionCall st) as [[name args]|]; simpl; [|done].
    by rewrite append_empty_r.
  - apply Forall_cons in Hrs as [Hr Hrs]. cbn [foldl].
    rewrite IH, followup_recv_unfinished, first_chunks_cons by done.
    apply followup_extended_app.
Qed.

(** With the marker, a response delivers the call under construction, its
    own first chunk included, commits it and starts anew. *)
Lemma followup_recv_marker_call received st :
  finish_marker received = "tool_calls" →
  let st' := SendFunctionResult_recv handler pending received st in
  match followup_extended (under_construction st)
          (option_list (head (tool_calls_of received))) with
  | Some (call, id) =>
      function_calls (Followup.calls st')
      = function_calls (Followup.calls st)
        ++ [FunctionCall.mk (openai.FunctionCall.Name call)
              (openai.FunctionCall.Arguments call) id]
      ∧ Followup.history st'
        = Followup.history st
          ++ [Message.mk openai.ChatMessageRoleAssistant ""
                [ToolCall.mk id openai.ToolTypeFunction
                   (FunctionCall.mk (openai.FunctionCall.Name call)
                      (openai.FunctionCall.Arguments call) "")] "" ""]
  | None =>
      function_calls (Followup.calls st') = function_calls (Followup.calls st)
      ∧ Followup.history st' = Followup.history st
  end.
Proof.
  intros Hmarker. unfold under_construction, followup_extended, chunk_arguments.
  open_followup received; [discriminate|].
  unfold SendFunctionResult_choice. simpl. subst reason. simpl.
  destruct (nonempty content); destruct (default [] toolCalls) as [|c cs];
    destruct (Followup.currentFunctionCall st) as [[name args]|]; simpl;
    unfold concatenation, AddMessage; simpl;
    rewrite ?function_calls_app, ?append_empty_r; simpl; by rewrite ?app_nil_r.
Qed.

Lemma followup_loop_function_calls_unfinished rs st :
  Forall (λ received, finish_marker received ≠ "tool_calls") rs →
  function_calls (Followup.calls (SendFunctionResult_loop handler pending rs st))
  = function_calls (Followup.calls st).
Proof.
  unfold SendFunctionResult_loop. revert st.
  induction rs as [|r rs IH]; intros st Hrs; [done|].
  apply Forall_cons in Hrs as [Hr Hrs]. cbn [foldl]. rewrite IH by done.
  open_followup r; [done|]. unfold SendFunctionResult_choice. simpl.
  apply String.eqb_neq in Hr.
  destruct (nonempty content); destruct (default [] toolCalls) as [|c cs];
    destruct (Followup.currentFunctionCall st) as [[name args]|]; rewrite ?Hr; simpl;
    rewrite ?function_calls_app; simpl; by rewrite ?app_nil_r.
Qed.

Lemma followup_loop_completes rs st :
  followup_completes (Followup.calls (SendFunctionResult_loop handler pending rs st))
  = followup_completes (Followup.calls st).
Proof.
  unfold SendFunctionResult_loop. revert st.
  induction rs as [|r rs IH]; intros st; [done|].
  cbn [foldl]. rewrite IH.
  open_followup r; [done|]. unfold SendFunctionResult_choice, followup_completes. simpl.
  destruct (nonempty content); destruct (default [] toolCalls) as [|c cs];
    destruct (Followup.currentFunctionCall st) as [[name args]|];
    destruct (reason =? "tool_calls")%string; simpl;
    rewrite ?filter_app; simpl; by rewrite ?app_nil_r.
Qed.

End followup_call.

(** X9. When the follow-up stream delivers tool-call data and ends with the
    "tool_calls" marker and EOF, [SendFunctionResult] delivers one
    "function_call" item: its name and its id are those of the first
    tool-call chunk of the stream, and its arguments are the arguments of the
    first chunk of every response one after the other, whatever the ids of
    the later chunks. It commits, after the tool result, the assistant entry
    that issues this call, and after that entry the text of the follow-up, if
    there is some. *)
Theorem SendFunctionResult_nested_tool_call
    env a h handler callID functionName output success pre fin c cs :
  OpenAIAgent.history a = Some h →
  OpenAIAgent.currentHandler a = Some handler →
  Env.CreateChatCompletionStream env
    (SendFunctionResult_request env h callID functionName output success)
  = Created (Stream.mk (pre ++ [fin]) EOF) →
  finish_marker fin = "tool_calls" →
  Forall (λ received, finish_marker received ≠ "tool_calls") pre →
  first_chunks (pre ++ [fin]) = c :: cs →
  let r := SendFunctionResult env a callID functionName output success in
  let name := openai.FunctionCall.Name (openai.ToolCall.Function c) in
  let arguments := chunk_arguments (c :: cs) in
  let text := concatenation (text_fragments (pre ++ [fin])) in
  Run.ret r = None
  ∧ function_calls (Run.calls r) = [FunctionCall.mk name arguments (openai.ToolCall.ID c)]
  ∧ OpenAIAgent.history (Run.agent r)
    = Some (h ++ [toolResultMessage callID functionName output success;
                  Message.mk openai.ChatMessageRoleAssistant ""
                    [ToolCall.mk (openai.ToolCall.ID c) openai.ToolTypeFunction
                       (FunctionCall.mk name arguments "")] "" ""]
              ++ if nonempty text
                 then [Message.mk openai.ChatMessageRoleAssistant text [] "" ""]
                 else []).
Proof.
  intros Hh Hhandler Hclient Hmarker Hpre Hchunks r name arguments text.
  unfold r, SendFunctionResult. rewrite Hh, Hhandler, Hclient. simpl.
  set (p := delete callID (OpenAIAgent.pendingToolCalls a)).
  set (st0 := Followup.mk "" None ""
                (AddMessage h (toolResultMessage callID functionName output success)) []).
  pose proof (followup_loop_content handler p (pre ++ [fin]) st0) as Hcontent.
  rewrite followup_loop_snoc in *.
  set (st1 := SendFunctionResult_loop handler p pre st0) in *.
  pose proof (followup_recv_marker handler p fin st1 Hmarker) as Hreset.
  pose proof (followup_recv_marker_call handler p fin st1 Hmarker) as Hcall.
  simpl in Hcall.
  assert (Hunder : followup_extended (under_construction st1)
                     (option_list (head (tool_calls_of fin)))
                   = Some (openai.FunctionCall.mk name arguments, openai.ToolCall.ID c)).
  { unfold st1. rewrite followup_loop_unfinished by done.
    rewrite followup_extended_app.
    rewrite first_chunks_app, first_chunks_cons in Hchunks.
    cbn [first_chunks omap] in Hchunks. rewrite app_nil_r in Hchunks.
    by rewrite Hchunks. }
  rewrite Hunder in Hcall. destruct Hcall as [Hcalls Hhistory].
  destruct (followup_loop_history handler p pre st0) as (nested & Hst1 & _ & Hnil).
  rewrite (Hnil Hpre), app_nil_r in Hst1.
  fold st1 in Hst1. rewrite Hst1 in Hhistory.
  unfold st1 in Hcalls at 2.
  rewrite followup_loop_function_calls_unfinished in Hcalls by done.
  simpl in Hcalls, Hhistory, Hcontent. rewrite append_nil_l in Hcontent.
  rewrite Hreset, Hhistory, Hcontent. fold text.
  split; [done|]. split.
  - by rewrite function_calls_app, Hcalls.
  - unfold AddMessage. destruct (nonempty text); by rewrite <- ?app_assoc, ?app_nil_r.
Qed.

Lemma SendFunctionResult_nested_tool_call_witness :
  let stream :=
    Stream.mk [text_delta 1 "Reading."; call_delta 2 "c2" "read_file" "{";
               call_delta 3 "c3" "shell" "}"; finish 4 "tool_calls"] EOF in
  let r := SendFunctionResult (answering in_key_order (Created stream))
             (Run.agent after_turn1) "c1" "list_directory" "a.txt" true in
  function_calls (Run.calls r) = [FunctionCall.mk "read_file" "{}" "c2"]
  ∧ Message.Content <$> default [] (OpenAIAgent.history (Run.agent r))
    = ["list the files"; ""; mustMarshal "output" "a.txt"; ""; "Reading."].
Proof.
  intros stream r.
  destruct (SendFunctionResult_nested_tool_call (answering in_key_order (Created stream))
              (Run.agent after_turn1) (default [] (OpenAIAgent.history (Run.agent after_turn1)))
              1 "c1" "list_directory" "a.txt" true
              [text_delta 1 "Reading."; call_delta 2 "c2" "read_file" "{";
               call_delta 3 "c3" "shell" "}"] (finish 4 "tool_calls")
              (openai.ToolCall.mk "c2" "function" (openai.FunctionCall.mk "read_file" "{"))
              [openai.ToolCall.mk "c3" "function" (openai.FunctionCall.mk "shell" "}")]
              eq_refl eq_refl eq_refl eq_refl ltac:(by repeat constructor) eq_refl)
    as (_ & Hcalls & _).
  split; [exact Hcalls|by vm_compute].
Defined.

(** ** When [SendFunctionResult] signals completion *)

Lemma first_chunks_nil rs :
  first_chunks rs = [] ↔ Forall (λ received, ¬ carries_tool_calls received) rs.
Proof.
  induction rs as [|r rs IH].
  - split; [constructor|done].
  - rewrite first_chunks_cons, Forall_cons, <- IH. unfold carries_tool_calls.
    destruct (tool_calls_of r); simpl; naive_solver.
Qed.

(** X10. [SendFunctionResult] calls the handler with "followup_complete"
    exactly when the follow-up stream reaches EOF and no response after the
    last "tool_calls" marker carries tool-call data: the signal is withheld
    when the stream fails and when it ends with a call still under
    construction, and it is sent after every call that the marker
    finalized. *)
Theorem SendFunctionResult_completion_signal
    env a h handler callID functionName output success before after ending :
  OpenAIAgent.history a = Some h →
  OpenAIAgent.currentHandler a = Some handler →
  Env.CreateChatCompletionStream env
    (SendFunctionResult_request env h callID functionName output success)
  = Created (Stream.mk (before ++ after) ending) →
  (before = [] ∨ ∃ fin, last before = Some fin ∧ finish_marker fin = "tool_calls") →
  Forall (λ received, finish_marker received ≠ "tool_calls") after →
  followup_completes (Run.calls (SendFunctionResult env a callID functionName output success))
  ≠ []
  ↔ ending = EOF ∧ Forall (λ received, ¬ carries_tool_calls received) after.
Proof.
  intros Hh Hhandler Hclient Hbefore Hafter.
  unfold SendFunctionResult. rewrite Hh, Hhandler, Hclient. simpl.
  set (p := delete callID (OpenAIAgent.pendingToolCalls a)).
  set (st0 := Followup.mk "" None ""
                (AddMessage h (toolResultMessage callID functionName output success)) []).
  assert (Hcalls : followup_completes
            (Followup.calls (SendFunctionResult_loop handler p (before ++ after) st0)) = []).
  { by rewrite followup_loop_completes. }
  assert (Hst1 : under_construction (SendFunctionResult_loop handler p before st0) = None).
  { destruct Hbefore as [->|(fin & Hlast & Hmarker)]; [done|].
    apply last_Some in Hlast as [b ->].
    rewrite followup_loop_snoc. unfold under_construction.
    by rewrite followup_recv_marker. }
  assert (Hend : Followup.currentFunctionCall
                   (SendFunctionResult_loop handler p (before ++ after) st0) = None
                 ↔ Forall (λ received, ¬ carries_tool_calls received) after).
  { rewrite <- first_chunks_nil.
    pose proof (followup_loop_unfinished handler p after
                  (SendFunctionResult_loop handler p before st0) Hafter) as Hunder.
    rewrite Hst1 in Hunder. unfold SendFunctionResult_loop in *.
    rewrite foldl_app. unfold under_construction in Hunder at 1.
    destruct (Followup.currentFunctionCall _) as [call|]; simpl in Hunder;
      destruct (first_chunks after); simpl in Hunder; naive_solver. }
  destruct ending as [|err]; simpl.
  - destruct (Followup.currentFunctionCall _) as [call|]; simpl.
    + rewrite Hcalls. split; [done|]. intros [_ Hnone]. apply Hend in Hnone. discriminate.
    + unfold followup_completes in *. rewrite filter_app, Hcalls. simpl.
      split; [|done]. intros _. split; [done|]. by apply Hend.
  - rewrite Hcalls. split; [done|]. by intros [? _].
Qed.

Lemma SendFunctionResult_completion_signal_witness :
  let a := Run.agent after_turn1 in
  let run stream := SendFunctionResult (answering in_key_order (Created stream)) a
                      "c1" "list_directory" "a.txt" true in
  followup_completes (Run.calls (run turn2_stream)) ≠ []
  ∧ followup_completes
      (Run.calls (run (Stream.mk [call_delta 1 "c2" "read_file" "{"] EOF))) = [].
Proof.
  intros a run. split.
  - apply (SendFunctionResult_completion_signal
             (answering in_key_order (Created turn2_stream)) a
             (default [] (OpenAIAgent.history a)) 1 "c1" "list_directory" "a.txt" true
             (Stream.responses turn2_stream) [] EOF eq_refl eq_refl eq_refl).
    + right. eexists. split; [reflexivity|reflexivity].
    + constructor.
    + split; [done|constructor].
  - by vm_compute.
Defined.

(** ** The text of a follow-up *)

(** X11. The follow-up loop has no tool-call mode for text: for every
    follow-up stream, with or without tool-call data before or between the
    text fragments and whatever its ending, the k-th "message" item that
    [SendFunctionResult] delivers carries the first k text fragments one
    after the other, and there is one item for each fragment. *)
Theorem SendFunctionResult_delivers_all_the_text
    env a h handler callID functionName output success responses ending :
  OpenAIAgent.history a = Some h →
  OpenAIAgent.currentHandler a = Some handler →
  Env.CreateChatCompletionStream env
    (SendFunctionResult_request env h callID functionName output success)
  = Created (Stream.mk responses ending) →
  cumulative_contents (text_fragments responses)
    (message_contents
       (Run.calls (SendFunctionResult env a callID functionName output success))).
Proof.
  intros Hh Hhandler Hclient.
  unfold SendFunctionResult. rewrite Hh, Hhandler, Hclient. simpl.
  pose proof (followup_loop_text handler
                (delete callID (OpenAIAgent.pendingToolCalls a)) responses
                (Followup.mk "" None ""
                   (AddMessage h (toolResultMessage callID functionName output success)) []))
    as Hcalls.
  simpl in Hcalls.
  destruct ending; simpl.
  - destruct (Followup.currentFunctionCall _);
      rewrite ?message_contents_app, Hcalls; simpl; rewrite ?app_nil_r;
      apply cumulative_is_cumulative.
  - rewrite Hcalls. apply cumulative_is_cumulative.
Qed.

Lemma SendFunctionResult_delivers_all_the_text_witness :
  let stream :=
    Stream.mk [text_delta 1 "One "; call_delta 2 "c2" "shell" "{}"; text_delta 3 "two"]
      (RecvError "reset") in
  let r := SendFunctionResult (answering in_key_order (Created stream))
             (Run.agent after_turn1) "c1" "list_directory" "a.txt" true in
  message_contents (Run.calls r) = ["One "; "One two"]
  ∧ cumulative_contents ["One "; "two"] (message_contents (Run.calls r)).
Proof.
  intros stream r. split; [by vm_compute|].
  exact (SendFunctionResult_delivers_all_the_text (answering in_key_order (Created stream))
           (Run.agent after_turn1) (default [] (OpenAIAgent.history (Run.agent after_turn1)))
           1 "c1" "list_directory" "a.txt" true (Stream.responses stream)
           (RecvError "reset") eq_refl eq_refl eq_refl).
Defined.

(** ** The handler of a turn and of its follow-ups *)

Lemma emit_to handler since entries pending calls :
  Forall (λ d, Delivery.to d = handler) calls →
  Forall (λ d, Delivery.to d = handler)
    (foldl (SendMessage_emit handler since) (pending, calls) entries).2.
Proof.
  revert pending calls. induction entries as [|e es IH]; intros pending calls Hc; [done|].
  simpl. unfold SendMessage_emit at 2. simpl. apply IH.
  apply Forall_app. split; [done|]. by apply Forall_singleton.
Qed.

Lemma loop_to ord handler n rs st :
  Forall (λ d, Delivery.to d = handler) (Turn.calls st) →
  Forall (λ d, Delivery.to d = handler) (Turn.calls (SendMessage_loop ord handler n rs st)).
Proof.
  revert n st. induction rs as [|r rs IH]; intros n st Hst; simpl; [done|].
  apply IH. open_response r; [done|].
  destruct (nonempty content && _); destruct (reason =? "tool_calls")%string; simpl;
    try apply emit_to; rewrite ?Forall_app, ?Forall_singleton; auto.
Qed.

(** X12. The handler given to [SendMessage] receives every item of the turn
    and, as long as no other call replaces or clears it, every item of the
    follow-up that [SendFunctionResult] drives afterwards. *)
Theorem SendMessage_handler_serves_the_followup
    env env' a h messages handler callID functionName output success :
  OpenAIAgent.history a = Some h →
  ∃ r,
    SendMessage env a messages handler = Some r
    ∧ Forall (λ d, Delivery.to d = handler) (Run.calls r)
    ∧ Forall (λ d, Delivery.to d = handler)
        (Run.calls (SendFunctionResult env' (Run.agent r) callID functionName output success)).
Proof.
  intros Hh.
  exists (SendMessage_on env a h messages handler).
  split; [exact (SendMessage_returns _ _ _ _ _ Hh)|]. split.
  - unfold SendMessage_on.
    destruct (Env.CreateChatCompletionStream env _) as [err|[rs [|err]]]; simpl;
      [done|by apply loop_to..].
  - assert (Hagent : ∃ h' pending,
      OpenAIAgent.history (Run.agent (SendMessage_on env a h messages handler)) = Some h'
      ∧ OpenAIAgent.currentHandler (Run.agent (SendMessage_on env a h messages handler))
        = Some handler
      ∧ OpenAIAgent.pendingToolCalls (Run.agent (SendMessage_on env a h messages handler))
        = pending).
    { unfold SendMessage_on.
      destruct (Env.CreateChatCompletionStream env _) as [err|[rs [|err]]]; simpl; eauto. }
    destruct Hagent as (h' & pending & Hh' & Hhandler & Hpending).
    unfold SendFunctionResult. rewrite Hh', Hhandler, Hpending.
    destruct (Env.CreateChatCompletionStream env' _) as [err|[rs [|err]]]; simpl.
    + done.
    + destruct (Followup.currentFunctionCall _); rewrite ?Forall_app, ?Forall_singleton;
        auto using followup_loop_to.
    + by apply followup_loop_to.
Qed.

Lemma SendMessage_handler_serves_the_followup_witness :
  ∃ r,
    SendMessage (answering in_key_order (Created turn1_stream)) new_agent
      [user_message "list the files"] 7 = Some r
    ∧ Delivery.to <$> Run.calls r = [7]
    ∧ Forall (λ d, Delivery.to d = 7)
        (Run.calls (SendFunctionResult (answering in_key_order (Created turn2_stream))
                      (Run.agent r) "c1" "list_directory" "a.txt" true)).
Proof.
  destruct (SendMessage_handler_serves_the_followup
              (answering in_key_order (Created turn1_stream))
              (answering in_key_order (Created turn2_stream)) new_agent []
              [user_message "list the files"] 7 "c1" "list_directory" "a.txt" true eq_refl)
    as (r & Hrun & _ & Hfollowup).
  exists r. split; [exact Hrun|]. split; [|exact Hfollowup].
  injection Hrun as <-. by vm_compute.
Defined.

(** ** The two requests compared *)

Lemma SendFunctionResult_apiMsg_cases expected msg :
  (SendFunctionResult_apiMsg expected msg).2 = Some (SendMessage_apiMsg msg)
  ∨ (SendFunctionResult_apiMsg expected msg).2 = None
    ∧ is_assistant_text (SendMessage_apiMsg msg) = true.
Proof.
  destruct msg as [role content tcs tcid name].
  unfold SendFunctionResult_apiMsg, SendMessage_apiMsg, is_assistant_text. simpl.
  destruct (role =? openai.ChatMessageRoleAssistant)%string; simpl; [|by left].
  destruct tcs as [|tc tcs]; simpl; [|by left].
  destruct (0 <? size expected); simpl; [by right|by left].
Qed.

Lemma SendFunctionResult_filter_sublist expected historyMessages :
  SendFunctionResult_filter expected historyMessages
    `sublist_of` SendMessage_openAIMessages historyMessages
  ∧ filter (λ m, is_assistant_text m = false)
      (SendFunctionResult_filter expected historyMessages)
    = filter (λ m, is_assistant_text m = false) (SendMessage_openAIMessages historyMessages).
Proof.
  revert expected. induction historyMessages as [|msg rest IH]; intros expected; [done|].
  cbn [SendFunctionResult_filter]. unfold SendMessage_openAIMessages. rewrite fmap_cons.
  destruct (SendFunctionResult_apiMsg expected msg) as [expected' kept] eqn:Hmsg.
  destruct (IH expected') as [IHsub IHfilter].
  destruct (SendFunctionResult_apiMsg_cases expected msg) as [Hkept|[Hdropped Htext]];
    rewrite Hmsg in *; simpl in *; subst kept.
  - split; [by apply sublist_skip|]. rewrite !filter_cons. by rewrite IHfilter.
  - split; [by apply sublist_cons|]. rewrite filter_cons, decide_False; [done|].
    by rewrite Htext.
Qed.

(** X13. From one history, the request of [SendFunctionResult] is the
    request of [SendMessage] with some assistant text entries left out and
    nothing else changed: the entries that remain are the same and in the
    same order, and no user, system or tool entry and no entry that issues
    tool calls is ever dropped. *)
Theorem SendFunctionResult_request_drops_only_text historyMessages :
  SendFunctionResult_openAIMessages historyMessages
    `sublist_of` SendMessage_openAIMessages historyMessages
  ∧ filter (λ m, is_assistant_text m = false)
      (SendFunctionResult_openAIMessages historyMessages)
    = filter (λ m, is_assistant_text m = false) (SendMessage_openAIMessages historyMessages).
Proof. apply SendFunctionResult_filter_sublist. Qed.

Lemma results_before_text_after_tail expected expected' m out :
  results_before_text_after expected (m :: out) →
  (∀ id, is_Some (expected' !! id) →
         (is_Some (expected !! id) ∧ ¬ result_for id m)
         ∨ (issues_calls m
            ∧ ∃ tc, tc ∈ openai.ChatCompletionMessage.ToolCalls m
                    ∧ openai.ToolCall.ID tc = id)) →
  results_before_text_after expected' out.
Proof.
  intros Hall Hexpected j text Hj Htext.
  destruct (Hall (S j) text Hj Htext) as [Hpending Hissued]. split.
  - intros id Hid. destruct (Hexpected id Hid) as [[Hid' Hm]|(Hm & tc & Htc & <-)].
    + destruct (Hpending id Hid') as (k & r & Hk & Hr & Hres).
      destruct k as [|k]; [by injection Hr as <-|].
      exists k, r. split_and!; [lia|done..].
    + destruct (Hissued 0 m tc eq_refl Hm ltac:(lia) Htc) as (k & r & Hk & Hr & Hres).
      destruct k as [|k]; [lia|]. exists k, r. split_and!; [lia|done..].
  - intros i call tc Hi Hcall Hij Htc.
    destruct (Hissued (S i) call tc Hi Hcall ltac:(lia) Htc) as (k & r & Hk & Hr & Hres).
    destruct k as [|k]; [lia|]. exists k, r. split_and!; [lia..|done|done].
Qed.

Lemma SendFunctionResult_filter_keeps_consistent expected historyMessages :
  results_before_text_after expected (SendMessage_openAIMessages historyMessages) →
  SendFunctionResult_filter expected historyMessages
  = SendMessage_openAIMessages historyMessages.
Proof.
  revert expected. induction historyMessages as [|msg rest IH]; intros expected Hall; [done|].
  unfold SendMessage_openAIMessages in *. rewrite fmap_cons in *.
  cbn [SendFunctionResult_filter].
  destruct msg as [role content tcs tcid name].
  unfold SendFunctionResult_apiMsg, SendMessage_apiMsg in *.
  cbn [Message.Role Message.Content Message.ToolCalls Message.ToolCallID] in *.
  destruct (String.eqb_spec role openai.ChatMessageRoleAssistant) as [->|Hassistant].
  - change (openai.ChatMessageRoleAssistant =? openai.ChatMessageRoleTool)%string with false
      in *.
    destruct tcs as [|tc tcs].
    + (* an assistant text entry: nothing may be expected *)
      assert (expected = ∅) as ->.
      { apply map_empty. intros id. apply eq_None_not_Some. intros Hid.
        destruct (Hall 0 _ eq_refl ltac:(done)) as [Hpending _].
        destruct (Hpending id Hid) as (k & _ & Hk & _). lia. }
      simpl. f_equal. apply IH.
      eapply results_before_text_after_tail; [exact Hall|].
      intros id. rewrite lookup_empty. by intros [? ?].
    + cbn [length Nat.ltb Nat.leb andb negb] in *. f_equal. apply IH.
      eapply results_before_text_after_tail; [exact Hall|].
      intros id Hid. apply (expected_after_calls expected (tc :: tcs)) in Hid as [Hid|Hid].
      * left. split; [done|]. intros [Hrole _]. discriminate Hrole.
      * right. split; [done|].
        apply list_elem_of_fmap in Hid as (tc' & -> & Htc').
        exists (convertToolCall tc'). split; [|done].
        cbn [openai.ChatCompletionMessage.ToolCalls]. by apply list_elem_of_fmap_2.
  - cbn [andb negb] in *.
    destruct (String.eqb_spec role openai.ChatMessageRoleTool) as [->|Htool].
    + f_equal. apply IH.
      eapply results_before_text_after_tail; [exact Hall|].
      intros id Hid. left. apply lookup_delete_is_Some in Hid as [Hne Hid].
      split; [done|]. intros [_ Hres]. simpl in Hres. done.
    + f_equal. apply IH.
      eapply results_before_text_after_tail; [exact Hall|].
      intros id Hid. left. split; [done|]. by intros [Hrole _].
Qed.

(** X14. The filter of [SendFunctionResult] changes the request exactly when
    the history needs it: the two requests built from one history are equal
    if and only if the plain request of [SendMessage] already has, before
    every assistant text entry, the results of all the calls issued before
    it. *)
Theorem requests_agree_on_consistent_histories historyMessages :
  results_before_text (SendMessage_openAIMessages historyMessages)
  ↔ SendFunctionResult_openAIMessages historyMessages
    = SendMessage_openAIMessages historyMessages.
Proof.
  split.
  - intros Hall. apply SendFunctionResult_filter_keeps_consistent.
    intros j text Hj Htext. split.
    + intros id. rewrite lookup_empty. by intros [? ?].
    + intros i call tc Hi Hcall Hij Htc. by eapply Hall.
  - intros <-. apply SendFunctionResult_openAIMessages_results_before_text.
Qed.

(** ** [GetLastAssistantMessage] *)

Lemma lastAssistant_skips (skipped rest : list Message.t) :
  Forall not_assistant skipped →
  lastAssistant (skipped ++ rest) = lastAssistant rest.
Proof.
  induction 1 as [|m skipped Hm _ IH]; [done|].
  simpl. unfold not_assistant, openai.ChatMessageRoleAssistant in Hm.
  apply String.eqb_neq in Hm. by rewrite Hm.
Qed.

Lemma GetLastAssistantMessage_of_history a h :
  OpenAIAgent.history a = Some h →
  GetLastAssistantMessage a = lastAssistant (reverse h).
Proof. unfold GetLastAssistantMessage, GetMessages. intros ->. by destruct h. Qed.

(** X15. For an agent with a history, [GetLastAssistantMessage] returns the
    content of the last entry whose role is "assistant", with true, be the
    content empty as it is for an entry that issues tool calls; it returns
    the empty string with false exactly when the history has no assistant
    entry. *)
Theorem GetLastAssistantMessage_finds_the_last_entry a h :
  OpenAIAgent.history a = Some h →
  (∀ before m after,
     h = before ++ m :: after →
     Message.Role m = openai.ChatMessageRoleAssistant →
     Forall not_assistant after →
     GetLastAssistantMessage a = (Message.Content m, true))
  ∧ (Forall not_assistant h ↔ GetLastAssistantMessage a = ("", false)).
Proof.
  intros Hh. rewrite (GetLastAssistantMessage_of_history a h Hh). split.
  - intros before m after -> Hm Hafter.
    rewrite reverse_app, reverse_cons, <- app_assoc.
    rewrite lastAssistant_skips by by apply Forall_reverse.
    simpl. unfold openai.ChatMessageRoleAssistant in Hm.
    apply String.eqb_eq in Hm. by rewrite Hm.
  - split.
    + intros Hnone. rewrite <- (app_nil_r (reverse h)).
      by rewrite lastAssistant_skips by by apply Forall_reverse.
    + intros Hnone. apply Forall_reverse.
      induction (reverse h) as [|m l IH]; [constructor|].
      simpl in Hnone. destruct (String.eqb_spec (Message.Role m) "assistant"); [done|].
      constructor; [done|by apply IH].
Qed.

Lemma GetLastAssistantMessage_finds_the_last_entry_witness :
  GetLastAssistantMessage (Run.agent after_turn1) = ("", true)
  ∧ GetLastAssistantMessage (Run.agent after_turn3) = ("Done.", true)
  ∧ GetLastAssistantMessage new_agent = ("", false).
Proof.
  split_and!.
  - apply (proj1 (GetLastAssistantMessage_finds_the_last_entry (Run.agent after_turn1)
                    (default [] (OpenAIAgent.history (Run.agent after_turn1))) eq_refl)
             [user_message "list the files"]
             (Message.mk "assistant" ""
                [ToolCall.mk "c1" "function" (FunctionCall.mk "list_directory" "{}" "")] "" "")
             []); [by vm_compute|done|constructor].
  - by vm_compute.
  - by apply (proj2 (GetLastAssistantMessage_finds_the_last_entry new_agent [] eq_refl)).
Defined.

(** X16. After a turn of text that reaches EOF (no tool-call data, no
    "tool_calls" marker, no role announced other than "assistant", some
    text), [GetLastAssistantMessage] returns the text of the turn: the text
    fragments one after the other. *)
Theorem GetLastAssistantMessage_after_a_text_turn env a h messages handler responses :
  OpenAIAgent.history a = Some h →
  Env.CreateChatCompletionStream env
    (SendMessage_request env (OpenAIAgent.pendingToolCalls a) h messages)
  = Created (Stream.mk responses EOF) →
  Forall (λ received, ¬ carries_tool_calls received) responses →
  Forall (λ received, finish_marker received ≠ "tool_calls") responses →
  Forall (λ received, role_of received = "" ∨ role_of received = "assistant") responses →
  concatenation (text_fragments responses) ≠ "" →
  ∃ r,
    SendMessage env a messages handler = Some r
    ∧ GetLastAssistantMessage (Run.agent r)
      = (concatenation (text_fragments responses), true).
Proof.
  intros Hh Hclient Hcarries Hmarker Hroles Htext.
  pose proof (loop_ended_idle (Env.order env) handler 0 responses (Turn_start ∅)
                Hcarries Hmarker eq_refl) as Hended.
  destruct (loop_text (Env.order env) handler 0 responses (Turn_start ∅) Hcarries eq_refl)
    as (_ & Hcontent & _).
  pose proof (loop_role (Env.order env) handler 0 responses (Turn_start ∅)) as Hrole.
  simpl in Hended, Hcontent, Hrole. rewrite append_nil_l in Hcontent.
  assert (Hassistant :
    default openai.ChatMessageRoleAssistant
      (last (filter (λ s, s ≠ "") (role_of <$> responses))) = "assistant").
  { destruct (last _) as [role|] eqn:Hlast; [|done]. simpl.
    apply last_Some_elem_of, list_elem_of_filter in Hlast as [Hne Hin].
    apply list_elem_of_fmap in Hin as (r & -> & Hr).
    rewrite Forall_forall in Hroles. by destruct (Hroles r Hr). }
  run_SendMessage Hh Hclient.
  unfold SendMessage_commit, AddMessage. rewrite Hended, Hcontent, Hrole, Hassistant.
  apply nonempty_true in Htext. rewrite Htext.
  erewrite GetLastAssistantMessage_of_history by reflexivity.
  by rewrite reverse_app.
Qed.

Lemma GetLastAssistantMessage_after_a_text_turn_witness :
  ∃ r,
    SendMessage (answering in_key_order (Created unmarked_stream))
      (Run.agent after_turn3) [user_message "hi"] 1 = Some r
    ∧ GetLastAssistantMessage (Run.agent r) = ("Hello", true).
Proof.
  apply (GetLastAssistantMessage_after_a_text_turn
           (answering in_key_order (Created unmarked_stream)) (Run.agent after_turn3)
           session_log [user_message "hi"] 1 (Stream.responses unmarked_stream)
           eq_refl eq_refl);
    repeat constructor; by vm_compute.
Defined.

(** ** The agents that can exist *)

(** X17. Every agent that [NewOpenAIAgent] returns, and every agent that
    [SendMessage], [SendFunctionResult], [AddSystemMessage], [Cancel] and
    [FinalizeInteraction] leave from such an agent, has a history, so that
    [SendMessage] returns on it, and marks every id of its pending map
    true. *)
Theorem reachable_agents_have_a_history a :
  reachable a →
  is_Some (OpenAIAgent.history a)
  ∧ map_Forall (λ _ b, b = true) (OpenAIAgent.pendingToolCalls a)
  ∧ ∀ env messages handler, is_Some (SendMessage env a messages handler).
Proof.
  intros Hreach.
  assert (Hinv : is_Some (OpenAIAgent.history a)
                 ∧ map_Forall (λ _ b, b = true) (OpenAIAgent.pendingToolCalls a)).
  { induction Hreach as [key created a Hnew
                        |env a messages handler r _ [[h Hh] Htrue] Hrun
                        |env a callID functionName output success _ [[h Hh] Htrue]
                        |a content _ [[h Hh] Htrue]
                        |a _ IH|a _ IH].
    - unfold NewOpenAIAgent in Hnew.
      destruct (key =? "")%string; [done|]. destruct created; [done|].
      injection Hnew as <-. split; [by eexists|apply map_Forall_empty].
    - rewrite (SendMessage_returns _ _ _ _ _ Hh) in Hrun. injection Hrun as <-.
      unfold SendMessage_on. rewrite !SendMessage_reconcile_eq.
      assert (Hloop : ∀ rs, map_Forall (λ _ b, b = true)
                (Turn.pendingToolCalls
                   (SendMessage_loop (Env.order env) handler 0 rs (Turn_start ∅)))).
      { intros rs. apply loop_pending_exact; simpl.
        - by rewrite dom_empty_L.
        - apply map_Forall_empty. }
      destruct (Env.CreateChatCompletionStream env _) as [err|[rs [|err]]]; simpl;
        (split; [by eexists|]); [apply map_Forall_empty|apply Hloop..].
    - unfold SendFunctionResult. rewrite Hh.
      destruct (OpenAIAgent.currentHandler a); simpl;
        [destruct (Env.CreateChatCompletionStream env _) as [err|[rs [|err]]]; simpl|];
        (split; [by eexists|by apply map_Forall_delete]).
    - unfold AddSystemMessage. rewrite Hh.
      destruct (Contains content "DEBUG:"); simpl; (split; [by eexists|done]).
    - exact IH.
    - exact IH. }
  destruct Hinv as [[h Hh] Htrue]. split; [by eexists|]. split; [done|].
  intros env messages handler. rewrite (SendMessage_returns _ _ _ _ _ Hh). by eexists.
Qed.

Lemma reachable_agents_have_a_history_witness :
  reachable (Run.agent after_turn2)
  ∧ is_Some (OpenAIAgent.history (Run.agent after_turn2)).
Proof.
  assert (Hreach : reachable (Run.agent after_turn2)).
  { apply reach_SendFunctionResult.
    apply (reach_SendMessage (answering in_key_order (Created turn1_stream)) new_agent
             [user_message "list the files"] 1 after_turn1); [|reflexivity].
    by apply (reach_NewOpenAIAgent "sk-test" (inr [])). }
  split; [exact Hreach|].
  exact (proj1 (reachable_agents_have_a_history _ Hreach)).
Defined.

(** ** A turn that fails after its calls were announced *)

Lemma loop_function_call_ids_marker ord handler pre fin st :
  range_permutes ord →
  finish_marker fin = "tool_calls" →
  Forall (λ received, finish_marker received ≠ "tool_calls") pre →
  Turn.accumulatingToolCalls st = ∅ →
  Turn.calls st = [] →
  function_call_ids (Turn.calls (SendMessage_loop ord handler 0 (pre ++ [fin]) st))
  ≡ₚ first_seen (pre ++ [fin]).
Proof.
  intros Hord Hfin Hpre Hacc Hcalls.
  pose proof (loop_accumulating_dom ord handler 0 (pre ++ [fin]) st) as Hdom.
  revert Hdom. rewrite loop_app. simpl. intros Hdom.
  rewrite recv_function_call_ids, loop_function_call_ids_unfinished by done.
  rewrite Hfin, Hcalls. simpl. rewrite go_range_keys_perm by done.
  rewrite Hdom, Hacc, dom_empty_L, (left_id_L ∅ (∪)).
  apply first_occurrences_elements.
Qed.

(** X18. When the stream of a turn fails after the "tool_calls" marker, the
    calls of the turn were announced and stay pending while no entry of the
    history issues them. The next [SendMessage] then appends one cancelled
    result for each of these calls directly after the history that the
    failed turn left, which holds no assistant entry of that turn. *)
Theorem SendMessage_cancels_the_calls_of_a_failed_turn
    env env' a h messages messages' handler handler' pre fin err :
  range_permutes (Env.order env) →
  range_permutes (Env.order env') →
  OpenAIAgent.history a = Some h →
  Env.CreateChatCompletionStream env
    (SendMessage_request env (OpenAIAgent.pendingToolCalls a) h messages)
  = Created (Stream.mk (pre ++ [fin]) (RecvError err)) →
  finish_marker fin = "tool_calls" →
  Forall (λ received, finish_marker received ≠ "tool_calls") pre →
  ∃ r r' aborted committed,
    SendMessage env a messages handler = Some r
    ∧ OpenAIAgent.history (Run.agent r)
      = Some (SendMessage_reconcile (Env.order env) (OpenAIAgent.pendingToolCalls a)
                h messages).1
    ∧ SendMessage env' (Run.agent r) messages' handler' = Some r'
    ∧ OpenAIAgent.history (Run.agent r')
      = Some ((SendMessage_reconcile (Env.order env) (OpenAIAgent.pendingToolCalls a)
                 h messages).1
              ++ aborted ++ messages' ++ committed)
    ∧ aborted = cancelled_result <$> (Message.ToolCallID <$> aborted)
    ∧ Message.ToolCallID <$> aborted ≡ₚ first_seen (pre ++ [fin]).
Proof.
  intros Hord Hord' Hh Hclient Hfin Hpre.
  set (st := SendMessage_loop (Env.order env) handler 0 (pre ++ [fin]) (Turn_start ∅)).
  set (h1 := (SendMessage_reconcile (Env.order env) (OpenAIAgent.pendingToolCalls a)
                h messages).1).
  set (r := SendMessage_on env a h messages handler).
  assert (Hr : Run.agent r
               = OpenAIAgent.mk true (Some h1) (Some handler) (Turn.pendingToolCalls st)).
  { unfold r, SendMessage_on, h1, st. by rewrite Hclient, !SendMessage_reconcile_eq. }
  assert (Hpending : elements (dom (Turn.pendingToolCalls st)) ≡ₚ first_seen (pre ++ [fin])).
  { destruct (loop_pending_exact (Env.order env) handler 0 (pre ++ [fin]) (Turn_start ∅))
      as [Hdom _]; simpl; [by rewrite dom_empty_L|apply map_Forall_empty|].
    fold st in Hdom. rewrite Hdom.
    pose proof (loop_function_call_ids_marker (Env.order env) handler pre fin (Turn_start ∅)
                  Hord Hfin Hpre eq_refl eq_refl) as Hids.
    fold st in Hids.
    apply NoDup_Permutation; [apply NoDup_elements|apply NoDup_first_occurrences|].
    intros id. by rewrite elem_of_elements, elem_of_list_to_set, Hids. }
  set (keys := (go_range (Env.order env') AtDrain (Turn.pendingToolCalls st)).*1).
  exists r, (SendMessage_on env' (Run.agent r) h1 messages' handler'),
    (cancelled_result <$> keys).
  assert (Hhistory : OpenAIAgent.history (Run.agent r) = Some h1) by by rewrite Hr.
  assert (Hfmap : Message.ToolCallID <$> (cancelled_result <$> keys) = keys).
  { rewrite <- list_fmap_compose. by rewrite list_fmap_id. }
  assert (Hrest : ∃ committed,
    OpenAIAgent.history (Run.agent (SendMessage_on env' (Run.agent r) h1 messages' handler'))
    = Some (h1 ++ (cancelled_result <$> keys) ++ messages' ++ committed)).
  { unfold SendMessage_on at 1. rewrite !SendMessage_reconcile_eq. rewrite Hr. simpl.
    fold keys.
    destruct (Env.CreateChatCompletionStream env' _) as [e|[rs [|e]]]; simpl.
    - exists []. by rewrite !app_nil_r.
    - eexists. by rewrite SendMessage_commit_appends, <- !app_assoc.
    - exists []. by rewrite !app_nil_r. }
  destruct Hrest as [committed Hrest]. exists committed.
  split_and!.
  - exact (SendMessage_returns _ _ _ _ _ Hh).
  - exact Hhistory.
  - exact (SendMessage_returns _ _ _ _ _ Hhistory).
  - exact Hrest.
  - by rewrite Hfmap.
  - rewrite Hfmap. unfold keys. by rewrite go_range_keys_perm.
Qed.

Lemma SendMessage_cancels_the_calls_of_a_failed_turn_witness :
  let env := answering in_key_order
               (Created (Stream.mk [call_delta 1 "c9" "shell" "{}"; finish 2 "tool_calls"]
                          (RecvError "reset"))) in
  let env' := answering in_key_order (Created unmarked_stream) in
  ∃ r r',
    SendMessage env new_agent [user_message "go"] 1 = Some r
    ∧ SendMessage env' (Run.agent r) [user_message "again"] 1 = Some r'
    ∧ Message.Role <$> default [] (OpenAIAgent.history (Run.agent r'))
      = ["user"; "tool"; "user"; "assistant"].
Proof.
  intros env env'.
  destruct (SendMessage_cancels_the_calls_of_a_failed_turn env env' new_agent []
              [user_message "go"] [user_message "again"] 1 1
              [call_delta 1 "c9" "shell" "{}"] (finish 2 "tool_calls") "reset"
              in_key_order_permutes in_key_order_permutes eq_refl eq_refl eq_refl
              ltac:(by repeat constructor))
    as (r & r' & aborted & committed & Hrun & _ & Hrun' & _).
  exists r, r'. split; [exact Hrun|]. split; [exact Hrun'|].
  injection Hrun as <-. injection Hrun' as <-. by vm_compute.
Defined.

(** ** The pending map at every call of the handler *)

Lemma pending_follows_calls_app seen xs ys :
  pending_follows_calls seen (xs ++ ys)
  ↔ pending_follows_calls seen xs
    ∧ pending_follows_calls (seen ∪ list_to_set (function_call_ids xs)) ys.
Proof.
  revert seen. induction xs as [|d xs IH]; intros seen.
  - simpl. rewrite (right_id_L ∅ (∪)). naive_solver.
  - change ((d :: xs) ++ ys) with (d :: (xs ++ ys)). cbn [pending_follows_calls].
    rewrite IH.
    assert (Hids : seen ∪ list_to_set (function_call_ids (d :: xs))
                   = seen ∪ list_to_set (function_call_ids [d])
                     ∪ list_to_set (function_call_ids xs)).
    { change (d :: xs) with ([d] ++ xs).
      by rewrite function_call_ids_app, list_to_set_app_L, (assoc_L (∪)). }
    rewrite Hids. naive_solver.
Qed.

Lemma emit_pending_follows handler since entries pending calls :
  dom pending = list_to_set (function_call_ids calls) →
  pending_follows_calls ∅ calls →
  pending_follows_calls ∅ (foldl (SendMessage_emit handler since) (pending, calls) entries).2.
Proof.
  revert pending calls. induction entries as [|e es IH]; intros pending calls Hdom Hcalls;
    [done|].
  simpl. unfold SendMessage_emit at 2. simpl. apply IH.
  - rewrite function_call_ids_app, list_to_set_app_L, dom_insert_L, Hdom. simpl. set_solver.
  - apply pending_follows_calls_app. split; [done|]. simpl.
    rewrite dom_insert_L, Hdom. split; [|done]. set_solver.
Qed.

Lemma recv_pending_dom ord handler n received st :
  dom (Turn.pendingToolCalls st) = list_to_set (function_call_ids (Turn.calls st)) →
  dom (Turn.pendingToolCalls (SendMessage_recv ord handler n received st))
  = list_to_set (function_call_ids (Turn.calls (SendMessage_recv ord handler n received st))).
Proof.
  intros Hdom. rewrite recv_function_call_ids.
  open_response received; [by rewrite app_nil_r|].
  destruct (reason =? "tool_calls")%string; simpl.
  - rewrite emit_pending_dom, list_to_set_app_L. by rewrite Hdom.
  - by rewrite app_nil_r.
Qed.

Lemma recv_pending_follows ord handler n received st :
  dom (Turn.pendingToolCalls st) = list_to_set (function_call_ids (Turn.calls st)) →
  pending_follows_calls ∅ (Turn.calls st) →
  pending_follows_calls ∅ (Turn.calls (SendMessage_recv ord handler n received st)).
Proof.
  intros Hdom Hcalls. open_response received; [done|].
  assert (Htext : ∀ role' content',
    pending_follows_calls ∅
      (Turn.calls st ++ [Delivery.mk handler (message_item role' content' since)
                           (Turn.pendingToolCalls st)])).
  { intros. apply pending_follows_calls_app. split; [done|]. simpl.
    rewrite Hdom. split; [|done]. set_solver. }
  destruct (nonempty content && _); destruct (reason =? "tool_calls")%string; simpl;
    try apply emit_pending_follows; try done;
    by rewrite function_call_ids_app, app_nil_r.
Qed.

Lemma loop_pending_follows ord handler n rs st :
  dom (Turn.pendingToolCalls st) = list_to_set (function_call_ids (Turn.calls st)) →
  pending_follows_calls ∅ (Turn.calls st) →
  pending_follows_calls ∅ (Turn.calls (SendMessage_loop ord handler n rs st)).
Proof.
  revert n st. induction rs as [|r rs IH]; intros n st Hdom Hcalls; simpl; [done|].
  apply IH; [by apply recv_pending_dom | by apply recv_pending_follows].
Qed.

(** X1. In a turn that [SendMessage] drives, every call of the handler is
    made while the pending map holds exactly the ids of the "function_call"
    items delivered so far in this turn, the one being delivered included:
    an id is entered before its item is handed over, the ids that were
    pending before the turn are gone at the first call, and no id enters the
    map without being announced. *)
Theorem SendMessage_pending_follows_the_calls env a h messages handler :
  OpenAIAgent.history a = Some h →
  ∃ r,
    SendMessage env a messages handler = Some r
    ∧ pending_follows_calls ∅ (Run.calls r).
Proof.
  intros Hh.
  assert (Hloop : ∀ rs,
    pending_follows_calls ∅
      (Turn.calls (SendMessage_loop (Env.order env) handler 0 rs (Turn_start ∅)))).
  { intros rs. apply loop_pending_follows; simpl; [by rewrite dom_empty_L|done]. }
  run_SendMessage Hh Hh.
  destruct (Env.CreateChatCompletionStream env _) as [err|[rs [|err]]]; simpl;
    [done|apply Hloop..].
Qed.

Lemma SendMessage_pending_follows_the_calls_witness :
  let stream := Stream.mk [text_delta 1 "Look."; call_delta 2 "c1" "shell" "{}";
                           call_delta 3 "c2" "shell" "{}"; finish 4 "tool_calls"] EOF in
  let env := answering in_key_order (Created stream) in
  ∃ r,
    SendMessage env (Run.agent after_turn1) [] 1 = Some r
    ∧ (λ d, elements (dom (Delivery.pendingThen d))) <$> Run.calls r
      = [[]; ["c1"]; ["c1"; "c2"]]
    ∧ pending_follows_calls ∅ (Run.calls r).
Proof.
  intros stream env.
  destruct (SendMessage_pending_follows_the_calls env (Run.agent after_turn1)
              (default [] (OpenAIAgent.history (Run.agent after_turn1))) [] 1 eq_refl)
    as (r & Hrun & Hfollows).
  exists r. split; [exact Hrun|]. split; [|exact Hfollows].
  injection Hrun as <-. by vm_compute.
Defined.
